(** * dgcgears: the swapchain manager, the frame loop and the indirect
      records of [src/dgcgears.c], as a shallow embedding.

    Integers of the C program are [Z]; Vulkan handles are opaque [Z]
    identifiers; C arrays are lists read and written by index.  Calls into
    the Vulkan driver and the window system are answered by a [device]
    record of pure functions, so every modelled function of the program is
    an executable Rocq function of the program state and of the answers
    the driver gives. *)

From Stdlib Require Import ZArith List Bool Lia String.
From stdpp Require Import base list.
Import ListNotations.
Local Open Scope Z_scope.

(** ** How a run stops

    [error()] prints its diagnostic on stderr and calls [exit(1)];
    [wsi_exit] and the Esc key call [exit(0)]; a failed [assert] aborts;
    reading or writing an array outside its bounds, or shifting a 32-bit
    value by 32, is undefined in C; a wait on a fence that nothing will
    signal never returns; [main] returns when the option loop rejects an
    argument or the frame loop is left. *)
Inductive stop : Type :=
| Fatal (diagnostic : string)
| ExitOk
| AssertFail
| Undefined
| Hang
| MainReturns (status : Z).

Inductive result (A : Type) : Type :=
| Ok (a : A)
| Stop (why : stop).
Arguments Ok {A} a.
Arguments Stop {A} why.

Definition bind {A B : Type} (r : result A) (k : A -> result B) : result B :=
  match r with
  | Ok a => k a
  | Stop why => Stop why
  end.

Notation "x <- r ;; k" := (bind r (fun x => k))
  (at level 100, r at next level, right associativity).

Definition error {A : Type} (diagnostic : string) : result A :=
  Stop (Fatal diagnostic).

Definition assert (b : bool) : result unit :=
  if b then Ok tt else Stop AssertFail.

(** ** Constants of the Vulkan headers used by the program *)
Module Vk.
Definition VK_SUCCESS : Z := 0.
Definition VK_SUBOPTIMAL_KHR : Z := 1000001003.

Definition VK_MEMORY_PROPERTY_DEVICE_LOCAL_BIT : Z := 1.
Definition VK_MEMORY_PROPERTY_HOST_VISIBLE_BIT : Z := 2.
Definition VK_MEMORY_PROPERTY_HOST_COHERENT_BIT : Z := 4.
Definition VK_MEMORY_PROPERTY_LAZILY_ALLOCATED_BIT : Z := 16.
Definition VK_MAX_MEMORY_TYPES : Z := 32.

Definition VK_PRESENT_MODE_IMMEDIATE_KHR : Z := 0.
Definition VK_PRESENT_MODE_MAILBOX_KHR : Z := 1.
Definition VK_PRESENT_MODE_FIFO_KHR : Z := 2.

Definition VK_FORMAT_B8G8R8A8_SRGB : Z := 50.
Definition VK_FORMAT_X8_D24_UNORM_PACK32 : Z := 125.
Definition VK_FORMAT_D32_SFLOAT : Z := 126.
Definition VK_COLOR_SPACE_SRGB_NONLINEAR_KHR : Z := 0.
Definition VK_FORMAT_FEATURE_DEPTH_STENCIL_ATTACHMENT_BIT : Z := 512.

Definition VK_SAMPLE_COUNT_1_BIT : Z := 1.
Definition VK_SAMPLE_COUNT_2_BIT : Z := 2.
Definition VK_SAMPLE_COUNT_4_BIT : Z := 4.
Definition VK_SAMPLE_COUNT_8_BIT : Z := 8.
Definition VK_SAMPLE_COUNT_16_BIT : Z := 16.
Definition VK_SAMPLE_COUNT_32_BIT : Z := 32.
Definition VK_SAMPLE_COUNT_64_BIT : Z := 64.

Definition VK_IMAGE_USAGE_COLOR_ATTACHMENT_BIT : Z := 16.
Definition VK_IMAGE_USAGE_DEPTH_STENCIL_ATTACHMENT_BIT : Z := 32.
Definition VK_IMAGE_USAGE_TRANSIENT_ATTACHMENT_BIT : Z := 64.
Definition VK_IMAGE_ASPECT_COLOR_BIT : Z := 1.
Definition VK_IMAGE_ASPECT_DEPTH_BIT : Z := 2.

Inductive VkImageLayout : Type :=
| VK_IMAGE_LAYOUT_UNDEFINED
| VK_IMAGE_LAYOUT_COLOR_ATTACHMENT_OPTIMAL
| VK_IMAGE_LAYOUT_DEPTH_STENCIL_ATTACHMENT_OPTIMAL
| VK_IMAGE_LAYOUT_PRESENT_SRC_KHR.
End Vk.
Import Vk.

(** ** Memory-type search *)

(** [VkPhysicalDeviceMemoryProperties]: [memoryTypes] is the array of
    [VK_MAX_MEMORY_TYPES] entries of the struct, each entry given by its
    [propertyFlags]; the driver reports the first [memoryTypeCount] of
    them and leaves the rest unspecified. *)
Record VkPhysicalDeviceMemoryProperties : Type := {
  memoryTypeCount : Z;
  memoryTypes : list Z
}.

Definition propertyFlags (mp : VkPhysicalDeviceMemoryProperties) (i : Z) : Z :=
  nth (Z.to_nat i) (memoryTypes mp) 0.

(** The [for] loop of [find_memory_type], entered with counter [i].
    [left] is [32 - i]: when it reaches zero the loop condition would
    evaluate [1u << 32], which C leaves undefined. *)
Fixpoint find_memory_type_from (mp : VkPhysicalDeviceMemoryProperties)
    (memoryTypeBits flags : Z) (left : nat) (i : Z) : result Z :=
  match left with
  | O => Stop Undefined
  | S left' =>
      if (Z.shiftl 1 i <=? memoryTypeBits) && (i <=? memoryTypeCount mp) then
        if negb (Z.land memoryTypeBits (Z.shiftl 1 i) =? 0)
           && (Z.land (propertyFlags mp i) flags =? flags)
        then Ok i
        else find_memory_type_from mp memoryTypeBits flags left' (i + 1)
      else Ok (-1)
  end.

Definition find_memory_type (mp : VkPhysicalDeviceMemoryProperties)
    (memoryTypeBits flags : Z) : result Z :=
  find_memory_type_from mp memoryTypeBits flags 32 0.

(** A memory type the driver reported ([i < memoryTypeCount]) that the
    resource accepts and that has all the wanted property flags. *)
Definition suitable (mp : VkPhysicalDeviceMemoryProperties)
    (memoryTypeBits flags i : Z) : Prop :=
  0 <= i < memoryTypeCount mp /\
  Z.testbit memoryTypeBits i = true /\
  Z.land (propertyFlags mp i) flags = flags.

(** The block that [create_swapchain] runs for the resolve image and
    again for the depth image: lazily-allocated memory first, then
    device-local memory, then the fatal error. *)
Definition image_memory_type (mp : VkPhysicalDeviceMemoryProperties)
    (memoryTypeBits : Z) : result Z :=
  memory_type <- find_memory_type mp memoryTypeBits
                   VK_MEMORY_PROPERTY_LAZILY_ALLOCATED_BIT ;;
  if memory_type <? 0 then
    memory_type <- find_memory_type mp memoryTypeBits
                     VK_MEMORY_PROPERTY_DEVICE_LOCAL_BIT ;;
    if memory_type <? 0 then error "find_memory_type failed"
    else Ok memory_type
  else Ok memory_type.

(** ** The driver and the window system

    What the Vulkan driver and the surface answer when the program asks.
    [swapchain_images] is what [vkGetSwapchainImagesKHR] returns for a
    swapchain created with the given parameters; [create_image_answer] is
    [None] when [vkCreateImage] fails and otherwise the new handle with the
    [memoryTypeBits] of its memory requirements; [create_buffer_answer size
    usage] is the same for [vkCreateBuffer], without the handle;
    [map_memory_answer memory size] is [None] when [vkMapMemory] fails and
    leaves the pointer alone, and otherwise the number of bytes the host
    can reach behind the pointer it stores: Vulkan promises the [size]
    asked for and nothing beyond it, a driver that maps whole pages gives
    more;
    [init_vk_failure] is how [init_vk] stops when instance, device or queue
    are not to be had. *)
Record swapchain_info : Type := {
  sc_minImageCount : Z;
  sc_imageFormat : Z;
  sc_imageColorSpace : Z;
  sc_width : Z;
  sc_height : Z;
  sc_presentMode : Z
}.

Record image_info : Type := {
  im_format : Z;
  im_width : Z;
  im_height : Z;
  im_samples : Z;
  im_usage : Z
}.

Record device : Type := {
  mem_props : VkPhysicalDeviceMemoryProperties;
  framebufferColorSampleCounts : Z;
  framebufferDepthSampleCounts : Z;
  optimalTilingFeatures : Z -> Z;
  supportedCompositeAlpha : Z;
  surface_supported : bool;
  caps_minImageCount : Z;
  caps_maxImageCount : Z;
  surface_present_modes : list Z;
  surface_formats : list (Z * Z);
  swapchain_images : swapchain_info -> list Z;
  create_image_answer : image_info -> option (Z * Z);
  allocate_memory_ok : Z -> Z -> bool;
  create_image_view_ok : Z -> Z -> Z -> bool;
  create_buffer_answer : Z -> Z -> option Z;
  map_memory_answer : Z -> Z -> option Z;
  init_vk_failure : option stop;
  create_surface_ok : bool
}.

(** ** Command line *)

Record options : Type := {
  printInfo : bool;
  sample_count : Z;
  desidered_present_mode : Z;
  use_shader_object : bool;
  opt_width : Z;
  opt_height : Z;
  fullscreen : bool
}.

(** The values [main] gives its variables before it reads [argv]. *)
Definition default_options : options :=
  {| printInfo := false;
     sample_count := VK_SAMPLE_COUNT_1_BIT;
     desidered_present_mode := VK_PRESENT_MODE_FIFO_KHR;
     use_shader_object := false;
     opt_width := 300;
     opt_height := 300;
     fullscreen := false |}.

Definition set_printInfo (o : options) : options :=
  {| printInfo := true; sample_count := sample_count o;
     desidered_present_mode := desidered_present_mode o;
     use_shader_object := use_shader_object o;
     opt_width := opt_width o; opt_height := opt_height o;
     fullscreen := fullscreen o |}.

Definition set_sample_count (v : Z) (o : options) : options :=
  {| printInfo := printInfo o; sample_count := v;
     desidered_present_mode := desidered_present_mode o;
     use_shader_object := use_shader_object o;
     opt_width := opt_width o; opt_height := opt_height o;
     fullscreen := fullscreen o |}.

Definition set_desidered_present_mode (v : Z) (o : options) : options :=
  {| printInfo := printInfo o; sample_count := sample_count o;
     desidered_present_mode := v;
     use_shader_object := use_shader_object o;
     opt_width := opt_width o; opt_height := opt_height o;
     fullscreen := fullscreen o |}.

Definition set_use_shader_object (o : options) : options :=
  {| printInfo := printInfo o; sample_count := sample_count o;
     desidered_present_mode := desidered_present_mode o;
     use_shader_object := true;
     opt_width := opt_width o; opt_height := opt_height o;
     fullscreen := fullscreen o |}.

Definition set_size (w h : Z) (o : options) : options :=
  {| printInfo := printInfo o; sample_count := sample_count o;
     desidered_present_mode := desidered_present_mode o;
     use_shader_object := use_shader_object o;
     opt_width := w; opt_height := h;
     fullscreen := fullscreen o |}.

Definition set_fullscreen (o : options) : options :=
  {| printInfo := printInfo o; sample_count := sample_count o;
     desidered_present_mode := desidered_present_mode o;
     use_shader_object := use_shader_object o;
     opt_width := opt_width o; opt_height := opt_height o;
     fullscreen := true |}.

Definition sample_count_flag (n : Z) : result Z :=
  if n =? 1 then Ok VK_SAMPLE_COUNT_1_BIT
  else if n =? 2 then Ok VK_SAMPLE_COUNT_2_BIT
  else if n =? 4 then Ok VK_SAMPLE_COUNT_4_BIT
  else if n =? 8 then Ok VK_SAMPLE_COUNT_8_BIT
  else if n =? 16 then Ok VK_SAMPLE_COUNT_16_BIT
  else if n =? 32 then Ok VK_SAMPLE_COUNT_32_BIT
  else if n =? 64 then Ok VK_SAMPLE_COUNT_64_BIT
  else error "Invalid sample count".

(** The C library as [main] uses it on its arguments: [strtol] in base 10,
    and the tokens [strtok] cuts out of a string at the letter x. *)
Record libc : Type := {
  strtol : string -> Z;
  strtok_x : string -> list string
}.

(** The body of the [-size] branch. *)
Definition parse_size (c : libc) (arg : string) (o : options) : options :=
  match strtok_x c arg with
  | [] => o
  | token :: more =>
      let tmp := strtol c token in
      let o := if 0 <? tmp then set_size tmp (opt_height o) o else o in
      match more with
      | [] => o
      | token :: _ =>
          let tmp := strtol c token in
          if 0 <? tmp then set_size (opt_width o) tmp o else o
      end
  end.

(** The option loop of [main], on [argv[1..]].  An option it does not know
    (or [-samples] or [-size] in last position) prints the usage and makes
    [main] return -1. *)
Inductive parsed : Type :=
| Parsed (o : options)
| Usage
| ParseStop (why : stop).

Definition has_value (rest : list string) : bool :=
  match rest with
  | [] => false
  | _ :: _ => true
  end.

Fixpoint parse_args (c : libc) (argv : list string) (o : options) : parsed :=
  match argv with
  | [] => Parsed o
  | a :: rest =>
      if String.eqb a "-info" then
        parse_args c rest (set_printInfo o)
      else if String.eqb a "-samples" && has_value rest then
        match rest with
        | v :: rest' =>
            match sample_count_flag (strtol c v) with
            | Ok flag => parse_args c rest' (set_sample_count flag o)
            | Stop why => ParseStop why
            end
        | [] => Usage
        end
      else if String.eqb a "-present-mailbox" then
        parse_args c rest
          (set_desidered_present_mode VK_PRESENT_MODE_MAILBOX_KHR o)
      else if String.eqb a "-present-immediate" then
        parse_args c rest
          (set_desidered_present_mode VK_PRESENT_MODE_IMMEDIATE_KHR o)
      else if String.eqb a "-shader-object" then
        parse_args c rest (set_use_shader_object o)
      else if String.eqb a "-size" && has_value rest then
        match rest with
        | v :: rest' => parse_args c rest' (parse_size c v o)
        | [] => Usage
        end
      else if String.eqb a "-fullscreen" then
        parse_args c rest (set_fullscreen o)
      else Usage
  end.

Definition check_sample_count_support (dev : device) (sample_count : Z) : bool :=
  negb (Z.land sample_count (framebufferColorSampleCounts dev) =? 0)
  && negb (Z.land sample_count (framebufferDepthSampleCounts dev) =? 0).

(** ** Swapchain configuration *)

Definition VK_COMPOSITE_ALPHA_OPAQUE_BIT_KHR : Z := 1.

(** [ARRAY_SIZE(image_data)] and [MAX_CONCURRENT_FRAMES]. *)
Definition image_data_size : Z := 5.
Definition MAX_CONCURRENT_FRAMES : nat := 2.

Record swap_config : Type := {
  present_mode : Z;
  min_image_count : Z;
  image_format : Z;
  color_space : Z;
  depth_format : Z
}.

(** The loop over [present_modes]: [present_mode] holds
    [VK_PRESENT_MODE_FIFO_KHR] on entry and the loop leaves at the first
    entry equal to the wanted mode. *)
Fixpoint choose_present_mode (present_modes : list Z)
    (desidered present_mode : Z) : Z :=
  match present_modes with
  | [] => present_mode
  | m :: rest =>
      if m =? desidered then desidered
      else choose_present_mode rest desidered present_mode
  end.

(** The block that settles [min_image_count]. *)
Definition choose_min_image_count (minImageCount maxImageCount : Z) : result Z :=
  let min_image_count := 2 in
  min_image_count <-
    (if min_image_count <? minImageCount then
       if image_data_size <? minImageCount then
         error "surface_caps.minImageCount is too large (is: %d, max: %d)"
       else Ok minImageCount
     else Ok min_image_count) ;;
  if (0 <? maxImageCount) && (maxImageCount <? min_image_count)
  then Ok maxImageCount
  else Ok min_image_count.

(** The loop over [surface_formats], entered with the first entry as the
    current choice. *)
Fixpoint choose_surface_format (surface_formats : list (Z * Z))
    (current : Z * Z) : Z * Z :=
  match surface_formats with
  | [] => current
  | (format, colorSpace) :: rest =>
      if (format =? VK_FORMAT_B8G8R8A8_SRGB)
         && (colorSpace =? VK_COLOR_SPACE_SRGB_NONLINEAR_KHR)
      then (format, colorSpace)
      else choose_surface_format rest current
  end.

Definition choose_depth_format (dev : device) : Z :=
  if negb (Z.land (optimalTilingFeatures dev VK_FORMAT_D32_SFLOAT)
             VK_FORMAT_FEATURE_DEPTH_STENCIL_ATTACHMENT_BIT =? 0)
  then VK_FORMAT_D32_SFLOAT
  else VK_FORMAT_X8_D24_UNORM_PACK32.

Definition configure_swapchain (dev : device) (o : options) : result swap_config :=
  _ <- assert (negb (Z.land (supportedCompositeAlpha dev)
                       VK_COMPOSITE_ALPHA_OPAQUE_BIT_KHR =? 0)) ;;
  _ <- assert (surface_supported dev) ;;
  let present_mode :=
    choose_present_mode (surface_present_modes dev)
      (desidered_present_mode o) VK_PRESENT_MODE_FIFO_KHR in
  min_image_count <-
    choose_min_image_count (caps_minImageCount dev) (caps_maxImageCount dev) ;;
  match surface_formats dev with
  | [] => Stop Undefined
  | first_format :: _ =>
      let chosen := choose_surface_format (surface_formats dev) first_format in
      Ok {| present_mode := present_mode;
            min_image_count := min_image_count;
            image_format := fst chosen;
            color_space := snd chosen;
            depth_format := choose_depth_format dev |}
  end.

(** ** Numbers of type [float] and [double]

    The program computes the rotation angle, the view angles and the
    aspect ratio in floating point.  The arithmetic is kept abstract:
    [of_int] reads a literal such as [70.0], [to_float] is the rounding of
    a [double] to [float] on assignment, [flt a b] is [a < b] and
    [fle a b] is [a <= b]. *)
Class CFloat (F : Type) : Type := {
  of_int : Z -> F;
  fadd : F -> F -> F;
  fsub : F -> F -> F;
  fmul : F -> F -> F;
  fdiv : F -> F -> F;
  flt : F -> F -> bool;
  fle : F -> F -> bool;
  to_float : F -> F
}.

(** Whole numbers as an instance, for running the model on examples. *)
#[export] Instance whole_numbers : CFloat Z := {
  of_int := fun z => z;
  fadd := Z.add;
  fsub := Z.sub;
  fmul := Z.mul;
  fdiv := Z.div;
  flt := Z.ltb;
  fle := Z.leb;
  to_float := fun z => z
}.

Section Renderer.

Context {F : Type} {cf : CFloat F}.

(** *** Resources owned by the swapchain manager *)

Record VkImageView : Type := {
  view_image : Z;
  view_format : Z;
  view_aspect : Z
}.

Definition null_view : VkImageView :=
  {| view_image := 0; view_format := 0; view_aspect := 0 |}.

Record push_constants : Type := {
  pc_angle : F;
  pc_view_rot_0 : F;
  pc_view_rot_1 : F;
  pc_h : F
}.

(** What is recorded into a command buffer.  [CmdUpdateBuffer h] writes
    the projection matrix built from the aspect ratio [h];
    [CmdDrawGears] stands for the whole of [draw_gears]. *)
Inductive cmd : Type :=
| CmdBufferBarrier (srcAccessMask dstAccessMask : Z)
| CmdUpdateBuffer (h : F)
| CmdImageBarrier (oldLayout newLayout : VkImageLayout) (image : Z)
| CmdBeginRendering (width height : Z) (imageView : VkImageView)
    (resolveImageView : option VkImageView) (depthView : VkImageView)
| CmdDrawGears (width height : Z) (pc : push_constants)
| CmdEndRendering.

(** A fence is created signaled; [vkResetFences] makes it unsignaled;
    [vkQueueSubmit] attaches it to the submission of a slot's command
    buffer, whose completion signals it. *)
Inductive fence_state : Type :=
| FenceSignaledAtCreation
| FenceUnsignaled
| FencePending (slot : nat)
| FenceDestroyed.

Record frame_slot : Type := {
  fence : fence_state;
  cmd_buffer : list cmd
}.

Record image_slot : Type := {
  image : Z;
  view : VkImageView
}.

Record resources : Type := {
  swapchain : option swapchain_info;
  image_count : Z;
  color_msaa : Z;
  color_msaa_view : VkImageView;
  color_msaa_memory : Z;
  depth_image : Z;
  depth_view : VkImageView;
  depth_memory : Z;
  image_data : list image_slot;
  frame_data : list frame_slot
}.

(** Static storage before [create_swapchain] has run. *)
Definition no_resources : resources :=
  {| swapchain := None;
     image_count := 0;
     color_msaa := 0; color_msaa_view := null_view; color_msaa_memory := 0;
     depth_image := 0; depth_view := null_view; depth_memory := 0;
     image_data := replicate 5 {| image := 0; view := null_view |};
     frame_data := replicate MAX_CONCURRENT_FRAMES
                     {| fence := FenceDestroyed; cmd_buffer := [] |} |}.

(** The swapchain manager's variables. *)
Record swap_state : Type := {
  opts : options;
  width : Z;
  height : Z;
  new_width : Z;
  new_height : Z;
  cfg : swap_config;
  res : resources
}.

Definition with_res (r : resources) (s : swap_state) : swap_state :=
  {| opts := opts s; width := width s; height := height s;
     new_width := new_width s; new_height := new_height s;
     cfg := cfg s; res := r |}.

Definition with_size (w h : Z) (s : swap_state) : swap_state :=
  {| opts := opts s; width := w; height := h;
     new_width := new_width s; new_height := new_height s;
     cfg := cfg s; res := res s |}.

Definition with_new_size (w h : Z) (s : swap_state) : swap_state :=
  {| opts := opts s; width := width s; height := height s;
     new_width := w; new_height := h;
     cfg := cfg s; res := res s |}.

(** One of the two attachment blocks of [create_swapchain]: image,
    memory type (lazily allocated, else device local), allocation and
    binding, view.  The three messages are those of the block. *)
Definition create_attachment (dev : device) (info : image_info) (aspect : Z)
    (no_image no_memory no_view : string) : result (Z * Z * VkImageView) :=
  match create_image_answer dev info with
  | None => error no_image
  | Some (img, memoryTypeBits) =>
      memory_type <- image_memory_type (mem_props dev) memoryTypeBits ;;
      if negb (allocate_memory_ok dev img memory_type) then error no_memory
      else if negb (create_image_view_ok dev img (im_format info) aspect)
      then error no_view
      else Ok (img, memory_type,
               {| view_image := img; view_format := im_format info;
                  view_aspect := aspect |})
  end.

(** The loop that stores the swapchain images and their views into
    [image_data], entered with index [i]; the array has five entries. *)
Fixpoint store_images (swapchain_images : list Z) (format : Z) (i : nat)
    (image_data : list image_slot) : result (list image_slot) :=
  match swapchain_images with
  | [] => Ok image_data
  | img :: rest =>
      if (5 <=? i)%nat then Stop Undefined
      else store_images rest format (S i)
             (<[i := {| image := img;
                        view := {| view_image := img; view_format := format;
                                   view_aspect := VK_IMAGE_ASPECT_COLOR_BIT |} |}]>
                image_data)
  end.

Definition swapchain_create_info (s : swap_state) : swapchain_info :=
  {| sc_minImageCount := min_image_count (cfg s);
     sc_imageFormat := image_format (cfg s);
     sc_imageColorSpace := color_space (cfg s);
     sc_width := width s;
     sc_height := height s;
     sc_presentMode := present_mode (cfg s) |}.

Definition create_swapchain (dev : device) (s : swap_state) : result swap_state :=
  let info := swapchain_create_info s in
  let swapchain_images := swapchain_images dev info in
  let image_count := Z.of_nat (length swapchain_images) in
  _ <- assert (0 <? image_count) ;;
  msaa <-
    (if negb (sample_count (opts s) =? VK_SAMPLE_COUNT_1_BIT) then
       create_attachment dev
         {| im_format := image_format (cfg s);
            im_width := width s; im_height := height s;
            im_samples := sample_count (opts s);
            im_usage := Z.lor VK_IMAGE_USAGE_COLOR_ATTACHMENT_BIT
                          VK_IMAGE_USAGE_TRANSIENT_ATTACHMENT_BIT |}
         VK_IMAGE_ASPECT_COLOR_BIT
         "Failed to create resolve image"
         "Failed to allocate memory for the resolve image"
         "Failed to create the image view for the resolve image"
     else Ok (color_msaa (res s), color_msaa_memory (res s),
              color_msaa_view (res s))) ;;
  depth <-
    create_attachment dev
      {| im_format := depth_format (cfg s);
         im_width := width s; im_height := height s;
         im_samples := sample_count (opts s);
         im_usage := Z.lor VK_IMAGE_USAGE_DEPTH_STENCIL_ATTACHMENT_BIT
                       VK_IMAGE_USAGE_TRANSIENT_ATTACHMENT_BIT |}
      VK_IMAGE_ASPECT_DEPTH_BIT
      "Failed to create depth image"
      "Failed to allocate memory for the depth image"
      "Failed to create the image view for the depth image" ;;
  image_data <-
    store_images swapchain_images (image_format (cfg s)) 0
      (image_data (res s)) ;;
  Ok (with_res
        {| swapchain := Some info;
           image_count := image_count;
           color_msaa := fst (fst msaa);
           color_msaa_view := snd msaa;
           color_msaa_memory := snd (fst msaa);
           depth_image := fst (fst depth);
           depth_view := snd depth;
           depth_memory := snd (fst depth);
           image_data := image_data;
           frame_data := replicate MAX_CONCURRENT_FRAMES
                           {| fence := FenceSignaledAtCreation;
                              cmd_buffer := [] |} |} s).

Definition free_swapchain_data (s : swap_state) : swap_state :=
  with_res
    {| swapchain := swapchain (res s);
       image_count := image_count (res s);
       color_msaa := color_msaa (res s);
       color_msaa_view := color_msaa_view (res s);
       color_msaa_memory := color_msaa_memory (res s);
       depth_image := depth_image (res s);
       depth_view := depth_view (res s);
       depth_memory := depth_memory (res s);
       image_data := image_data (res s);
       frame_data := map (fun _ => {| fence := FenceDestroyed; cmd_buffer := [] |})
                       (frame_data (res s)) |} s.

(** [recreate_swapchain]: after [vkDeviceWaitIdle] the old resources and
    the old swapchain go, the size the window asked for becomes the size,
    and [create_swapchain] runs again. *)
Definition recreate_swapchain (dev : device) (s : swap_state) : result swap_state :=
  let s := free_swapchain_data s in
  let s := with_size (new_width s) (new_height s) s in
  create_swapchain dev s.


(** *** Gears and indirect records *)

Definition EMIT_VERTEX (num_verts : Z) : Z := num_verts + 1.

(** [START_STRIP] leaves room for two degenerate vertices unless the strip
    is the first one; [END_STRIP] fills them in and adds none. *)
Definition START_STRIP (num_verts : Z) : Z :=
  if num_verts =? 0 then num_verts else num_verts + 2.

(** [for (int i = from; ...; i++)] run [n] times on the vertex counter. *)
Fixpoint for_loop (n : nat) (i : Z) (body : Z -> Z -> Z) (num_verts : Z) : Z :=
  match n with
  | O => num_verts
  | S n' => for_loop n' (i + 1) body (body i num_verts)
  end.

Definition emit (k : nat) (num_verts : Z) : Z :=
  Nat.iter k EMIT_VERTEX num_verts.

(** The number of vertices [create_gear] writes and returns; the vertex
    data themselves are geometry and are left out. *)
Definition create_gear (teeth : Z) : Z :=
  let face := fun i n => if i <? teeth then emit 4 n else emit 2 n in
  let strip := fun (_ : Z) n => emit 4 (START_STRIP n) in
  let n := 0 in
  let n := START_STRIP n in
  let n := for_loop (Z.to_nat (teeth + 1)) 0 face n in
  let n := for_loop (Z.to_nat teeth) 0 strip n in
  let n := START_STRIP n in
  let n := for_loop (Z.to_nat (teeth + 1)) 0 face n in
  let n := for_loop (Z.to_nat teeth) 0 strip n in
  let n := for_loop (Z.to_nat teeth) 0
             (fun i n => strip i (strip i (strip i (strip i n)))) n in
  let n := START_STRIP n in
  for_loop (Z.to_nat (teeth + 1)) 0 (fun _ n => emit 2 n) n.

Record gear : Type := {
  first_vertex : Z;
  vertex_count : Z
}.

Record VkDrawIndirectCommand : Type := {
  vertexCount : Z;
  instanceCount : Z;
  firstVertex : Z;
  firstInstance : Z
}.

(** [struct indirect_data]: [ies_0] and [ies_1] are [ies[0]] and
    [ies[1]]. *)
Record indirect_data : Type := {
  ies_0 : Z;
  ies_1 : Z;
  draw : VkDrawIndirectCommand
}.

Definition uint32 (z : Z) : Z := z mod 2 ^ 32.

Definition pipeline_idx : list Z := [0; 1; 2].
Definition shader_idx : list Z := [0; 2; 3].

(** The entries of the indirect execution set. *)
Inductive variant : Type :=
| VertexShader (n : nat)
| FragmentShader
| Pipeline (n : nat)
| Unset.

(** [sizeof(struct ubo)], [sizeof(indirect_data)] and the size
    [init_gears] gives the indirect buffer. *)
Definition sizeof_ubo : Z := 64.
Definition sizeof_indirect_data : Z := 24.
Definition indirect_size : Z := 3 * (4 + 16).

Definition VK_BUFFER_USAGE_TRANSFER_DST_BIT : Z := 2.
Definition VK_BUFFER_USAGE_UNIFORM_BUFFER_BIT : Z := 16.
Definition VK_BUFFER_USAGE_VERTEX_BUFFER_BIT : Z := 128.
Definition VK_BUFFER_USAGE_INDIRECT_BUFFER_BIT : Z := 256.
Definition VK_BUFFER_USAGE_SHADER_DEVICE_ADDRESS_BIT : Z := 131072.

(** [create_buffer]: the buffer is known by the [memoryTypeBits] of its
    memory requirements. *)
Definition create_buffer (dev : device) (size usage : Z) : result Z :=
  match create_buffer_answer dev size usage with
  | None => error "Failed to create buffer"
  | Some memoryTypeBits => Ok memoryTypeBits
  end.

(** [allocate_buffer_mem]: the result is the memory type the memory is
    taken from. *)
Definition allocate_buffer_mem (dev : device) (buffer : Z) : result Z :=
  memory_type <- find_memory_type (mem_props dev) buffer
                   (Z.lor VK_MEMORY_PROPERTY_HOST_VISIBLE_BIT
                      VK_MEMORY_PROPERTY_HOST_COHERENT_BIT) ;;
  if memory_type <? 0 then error "failed to find coherent memory type"
  else Ok memory_type.

(** Mapped memory as the host sees it: 32-bit words, [None] where nothing
    has been stored since the memory was allocated. *)
Definition mapping : Type := list (option Z).

(** [vkMapMemory(device, memory, 0, size, 0, &p)]: the words behind [p],
    or [None] when the call fails and [p] keeps the value it had. *)
Definition map_memory (dev : device) (memory size : Z) : option mapping :=
  match map_memory_answer dev memory size with
  | None => None
  | Some bytes => Some (replicate (Z.to_nat (bytes / 4)) None)
  end.

(** A [uint32_t] stored through the mapped pointer, at word [k]; past the
    mapping the store is undefined. *)
Definition store (k : nat) (v : Z) (m : mapping) : result mapping :=
  if (k <? length m)%nat then Ok (<[k := Some (uint32 v)]> m)
  else Stop Undefined.

(** The word at which a field of [indirect_map[i]] lies: [indirect_data]
    is six words, [ies[0]], [ies[1]], then [draw] with [vertexCount],
    [instanceCount], [firstVertex] and [firstInstance]. *)
Definition words_of_indirect_data : nat := 6.
Definition ies_at (i j : nat) : nat := (words_of_indirect_data * i + j)%nat.
Definition vertexCount_at (i : nat) : nat := (words_of_indirect_data * i + 2)%nat.
Definition instanceCount_at (i : nat) : nat := (words_of_indirect_data * i + 3)%nat.
Definition firstVertex_at (i : nat) : nat := (words_of_indirect_data * i + 4)%nat.
Definition firstInstance_at (i : nat) : nat := (words_of_indirect_data * i + 5)%nat.

(** One turn of the loop that fills [indirect_map], store by store in the
    order of the source. *)
Definition write_indirect_record (use_shader_object : bool) (gears : list gear)
    (i : nat) (indirect_map : mapping) : result mapping :=
  match gears !! i, shader_idx !! i, pipeline_idx !! i with
  | Some g, Some s, Some p =>
      indirect_map <-
        store (ies_at i 0) (if use_shader_object then s else p) indirect_map ;;
      indirect_map <- store (ies_at i 1) 1 indirect_map ;;
      indirect_map <- store (vertexCount_at i) (vertex_count g) indirect_map ;;
      indirect_map <- store (firstVertex_at i) (first_vertex g) indirect_map ;;
      indirect_map <- store (firstInstance_at i) 0 indirect_map ;;
      store (instanceCount_at i) 1 indirect_map
  | _, _, _ => Stop Undefined
  end.

Fixpoint write_indirect_records (use_shader_object : bool) (gears : list gear)
    (n : nat) (i : nat) (indirect_map : mapping) : result mapping :=
  match n with
  | O => Ok indirect_map
  | S n' =>
      indirect_map <- write_indirect_record use_shader_object gears i indirect_map ;;
      write_indirect_records use_shader_object gears n' (S i) indirect_map
  end.

(** [indirect_map[i]] read back from the words, when all six have been
    stored. *)
Definition indirect_record (m : mapping) (i : nat) : option indirect_data :=
  match m !! ies_at i 0, m !! ies_at i 1, m !! vertexCount_at i,
        m !! instanceCount_at i, m !! firstVertex_at i,
        m !! firstInstance_at i with
  | Some (Some i0), Some (Some i1), Some (Some vc), Some (Some ic),
    Some (Some fv), Some (Some fi) =>
      Some {| ies_0 := i0; ies_1 := i1;
              draw := {| vertexCount := vc; instanceCount := ic;
                         firstVertex := fv; firstInstance := fi |} |}
  | _, _, _, _, _, _ => None
  end.

(** [indirect_map] is the memory behind the indirect buffer as
    [init_gears] leaves it. *)
Record gear_state : Type := {
  execution_set : list variant;
  gears : list gear;
  ubo_memory : Z;
  vertex_memory : Z;
  indirect_memory : Z;
  indirect_map : mapping
}.

(** [init_gears]: the execution set with its initial entries and the two
    updates, the three gears, the uniform, vertex and indirect buffers, the
    indirect records and the upload of the vertices.  The indirect buffer
    is created, allocated and mapped with [indirect_size] bytes; the result
    of that [vkMapMemory] is not looked at, so after a failure the loop
    stores through a pointer that was never set.  The second mapping is
    checked, and [memcpy] fills [mem_size] bytes of it.  Shader, pipeline
    and descriptor objects and the preprocess buffer are left out. *)
Definition init_gears (dev : device) (use_shader_object : bool) : result gear_state :=
  let execution_set :=
    if use_shader_object then
      <[3%nat := VertexShader 2]>
        (<[2%nat := VertexShader 1]> [VertexShader 0; FragmentShader; Unset; Unset])
    else
      <[2%nat := Pipeline 2]> (<[1%nat := Pipeline 1]> [Pipeline 0; Unset; Unset]) in
  let g0 := {| first_vertex := 0; vertex_count := uint32 (create_gear 20) |} in
  let g1 := {| first_vertex := uint32 (first_vertex g0 + vertex_count g0);
               vertex_count := uint32 (create_gear 10) |} in
  let g2 := {| first_vertex := uint32 (first_vertex g1 + vertex_count g1);
               vertex_count := uint32 (create_gear 10) |} in
  let gears := [g0; g1; g2] in
  let num_verts := uint32 (first_vertex g2 + vertex_count g2) in
  let mem_size := uint32 (4 * 6 * num_verts) in
  ubo_buffer <-
    create_buffer dev sizeof_ubo
      (Z.lor VK_BUFFER_USAGE_UNIFORM_BUFFER_BIT VK_BUFFER_USAGE_TRANSFER_DST_BIT) ;;
  vertex_buffer <- create_buffer dev mem_size VK_BUFFER_USAGE_VERTEX_BUFFER_BIT ;;
  ubo_memory <- allocate_buffer_mem dev ubo_buffer ;;
  vertex_memory <- allocate_buffer_mem dev vertex_buffer ;;
  indirect_buffer <-
    create_buffer dev indirect_size
      (Z.lor VK_BUFFER_USAGE_INDIRECT_BUFFER_BIT
         VK_BUFFER_USAGE_SHADER_DEVICE_ADDRESS_BIT) ;;
  indirect_memory <- allocate_buffer_mem dev indirect_buffer ;;
  indirect_map <-
    match map_memory dev indirect_memory indirect_size with
    | Some indirect_map =>
        write_indirect_records use_shader_object gears (length gears) 0
          indirect_map
    | None => Stop Undefined
    end ;;
  match map_memory_answer dev vertex_memory mem_size with
  | None => error "vkMapMemory failed"
  | Some bytes =>
      if bytes <? mem_size then Stop Undefined
      else Ok {| execution_set := execution_set;
                 gears := gears;
                 ubo_memory := ubo_memory;
                 vertex_memory := vertex_memory;
                 indirect_memory := indirect_memory;
                 indirect_map := indirect_map |}
  end.


(** *** Scene state and the window callbacks *)

Record scene : Type := {
  view_rot_0 : F;
  view_rot_1 : F;
  animate : bool;
  angle : F
}.

Definition initial_scene : scene :=
  {| view_rot_0 := of_int 20; view_rot_1 := of_int 30;
     animate := true; angle := of_int 0 |}.

Inductive wsi_key : Type :=
| WSI_KEY_ESC
| WSI_KEY_UP
| WSI_KEY_DOWN
| WSI_KEY_LEFT
| WSI_KEY_RIGHT
| WSI_KEY_A
| WSI_KEY_OTHER.

Definition with_view_rot (r0 r1 : F) (sc : scene) : scene :=
  {| view_rot_0 := r0; view_rot_1 := r1;
     animate := animate sc; angle := angle sc |}.

Definition wsi_key_press (down : bool) (key : wsi_key) (sc : scene) : result scene :=
  if negb down then Ok sc
  else
    match key with
    | WSI_KEY_ESC => Stop ExitOk
    | WSI_KEY_UP =>
        Ok (with_view_rot (to_float (fadd (view_rot_0 sc) (of_int 5)))
              (view_rot_1 sc) sc)
    | WSI_KEY_DOWN =>
        Ok (with_view_rot (to_float (fsub (view_rot_0 sc) (of_int 5)))
              (view_rot_1 sc) sc)
    | WSI_KEY_LEFT =>
        Ok (with_view_rot (view_rot_0 sc)
              (to_float (fadd (view_rot_1 sc) (of_int 5))) sc)
    | WSI_KEY_RIGHT =>
        Ok (with_view_rot (view_rot_0 sc)
              (to_float (fsub (view_rot_1 sc) (of_int 5))) sc)
    | WSI_KEY_A =>
        Ok {| view_rot_0 := view_rot_0 sc; view_rot_1 := view_rot_1 sc;
              animate := negb (animate sc); angle := angle sc |}
    | WSI_KEY_OTHER => Ok sc
    end.

(** *** The frame loop of [main] *)

Record timers : Type := {
  frames : Z;
  tRot0 : F;
  tRate0 : F
}.

Record world : Type := {
  sw : swap_state;
  gs : gear_state;
  sc : scene;
  tm : timers;
  frame_index : nat;
  first : list bool;
  presented : list nat
}.

Definition with_sw (s : swap_state) (w : world) : world :=
  {| sw := s; gs := gs w; sc := sc w; tm := tm w;
     frame_index := frame_index w; first := first w;
     presented := presented w |}.

Definition with_sc (s : scene) (w : world) : world :=
  {| sw := sw w; gs := gs w; sc := s; tm := tm w;
     frame_index := frame_index w; first := first w;
     presented := presented w |}.

Definition with_tm (t : timers) (w : world) : world :=
  {| sw := sw w; gs := gs w; sc := sc w; tm := t;
     frame_index := frame_index w; first := first w;
     presented := presented w |}.

Definition with_first (f : list bool) (w : world) : world :=
  {| sw := sw w; gs := gs w; sc := sc w; tm := tm w;
     frame_index := frame_index w; first := f;
     presented := presented w |}.

Definition with_frame_data (fd : list frame_slot) (s : swap_state) : swap_state :=
  with_res
    {| swapchain := swapchain (res s);
       image_count := image_count (res s);
       color_msaa := color_msaa (res s);
       color_msaa_view := color_msaa_view (res s);
       color_msaa_memory := color_msaa_memory (res s);
       depth_image := depth_image (res s);
       depth_view := depth_view (res s);
       depth_memory := depth_memory (res s);
       image_data := image_data (res s);
       frame_data := fd |} s.

(** What the window system delivers through the callbacks. *)
Inductive wsi_event : Type :=
| EvResize (p_new_width p_new_height : Z)
| EvKey (down : bool) (key : wsi_key)
| EvExit.

Definition deliver (ev : wsi_event) (w : world) : result world :=
  match ev with
  | EvResize p_new_width p_new_height =>
      Ok (with_sw (with_new_size p_new_width p_new_height (sw w)) w)
  | EvKey down key =>
      s <- wsi_key_press down key (sc w) ;;
      Ok (with_sc s w)
  | EvExit => Stop ExitOk
  end.

(** [wsi.update_window()]: the pending events reach the callbacks in
    order. *)
Fixpoint update_window (events : list wsi_event) (w : world) : result world :=
  match events with
  | [] => Ok w
  | ev :: rest =>
      w <- deliver ev w ;;
      update_window rest w
  end.

(** The angle after one turn of the loop that began [dt] after the
    previous one, when the animation runs. *)
Definition advance_angle (angle dt : F) : F :=
  let angle := to_float (fadd angle (fmul (of_int 70) dt)) in
  if flt (of_int 3600) angle then to_float (fsub angle (of_int 3600))
  else angle.

(** The time since the previous turn, as the loop computes it from [t]
    and [tRot0]. *)
Definition elapsed (t : F) (tm : timers) : F :=
  fsub t (if flt (tRot0 tm) (of_int 0) then t else tRot0 tm).

(** The head of the loop body, down to the rotation of the gears. *)
Definition advance_rotation (t : F) (w : world) : world :=
  let dt := elapsed t (tm w) in
  let w := with_tm {| frames := frames (tm w); tRot0 := t;
                      tRate0 := tRate0 (tm w) |} w in
  if animate (sc w) then
    with_sc {| view_rot_0 := view_rot_0 (sc w);
               view_rot_1 := view_rot_1 (sc w);
               animate := animate (sc w);
               angle := advance_angle (angle (sc w)) dt |} w
  else w.


Definition VK_ACCESS_UNIFORM_READ_BIT : Z := 8.
Definition VK_ACCESS_TRANSFER_WRITE_BIT : Z := 4096.

(** What one turn of the loop gets from outside: the clock, the window
    events with the value [update_window] returns, and the answer of
    [vkAcquireNextImageKHR]. *)
Record frame_input : Type := {
  now : F;
  events : list wsi_event;
  window_closed : bool;
  acquire_result : Z;
  image_index : nat
}.

(** [vkWaitForFences] with [UINT64_MAX] as timeout: it returns at once on
    a fence that is signaled, and when the submission completes on a fence
    attached to one; on a fence that was reset and handed to no submission
    it never returns. *)
Definition wait_for_fence (f : fence_state) : result unit :=
  match f with
  | FenceSignaledAtCreation => Ok tt
  | FencePending _ => Ok tt
  | FenceUnsignaled => Stop Hang
  | FenceDestroyed => Stop Undefined
  end.

Definition aspect_ratio (s : swap_state) : F :=
  to_float (fdiv (to_float (of_int (height s))) (of_int (width s))).

Definition draw_gears (w : world) : cmd :=
  CmdDrawGears (width (sw w)) (height (sw w))
    {| pc_angle := angle (sc w);
       pc_view_rot_0 := view_rot_0 (sc w);
       pc_view_rot_1 := view_rot_1 (sc w);
       pc_h := aspect_ratio (sw w) |}.

(** The commands [main] records between [vkBeginCommandBuffer] and
    [vkEndCommandBuffer].  [first] has four entries. *)
Definition record_commands (w : world) (image_index : nat) : result (list cmd) :=
  let multisampled := negb (sample_count (opts (sw w)) =? VK_SAMPLE_COUNT_1_BIT) in
  match first w !! image_index,
        image_data (res (sw w)) !! frame_index w,
        image_data (res (sw w)) !! image_index with
  | Some seen, Some slot_image, Some acquired =>
      Ok [ CmdBufferBarrier 0 0;
           CmdUpdateBuffer (aspect_ratio (sw w));
           CmdBufferBarrier VK_ACCESS_TRANSFER_WRITE_BIT VK_ACCESS_UNIFORM_READ_BIT;
           CmdImageBarrier
             (if negb seen then VK_IMAGE_LAYOUT_UNDEFINED
              else VK_IMAGE_LAYOUT_PRESENT_SRC_KHR)
             VK_IMAGE_LAYOUT_COLOR_ATTACHMENT_OPTIMAL
             (image slot_image);
           CmdBeginRendering (width (sw w)) (height (sw w))
             (if multisampled then color_msaa_view (res (sw w)) else view acquired)
             (if multisampled then Some (view acquired) else None)
             (depth_view (res (sw w)));
           draw_gears w;
           CmdEndRendering;
           CmdImageBarrier
             VK_IMAGE_LAYOUT_COLOR_ATTACHMENT_OPTIMAL
             VK_IMAGE_LAYOUT_PRESENT_SRC_KHR
             (image slot_image) ]
  | _, _, _ => Stop Undefined
  end.

(** The tail of the loop body: the frame counter, the ring index and the
    five-second rate report (the printing is left out). *)
Definition finish_frame (t : F) (image_index : nat) (w : world) : world :=
  let frames := frames (tm w) + 1 in
  let frame_index := S (frame_index w) in
  let frame_index :=
    if (frame_index =? MAX_CONCURRENT_FRAMES)%nat then 0%nat else frame_index in
  let tRate0 := if flt (tRate0 (tm w)) (of_int 0) then t else tRate0 (tm w) in
  let report := fle (of_int 5) (fsub t tRate0) in
  {| sw := sw w; gs := gs w; sc := sc w;
     tm := {| frames := if report then 0 else frames;
              tRot0 := tRot0 (tm w);
              tRate0 := if report then t else tRate0 |};
     frame_index := frame_index;
     first := first w;
     presented := image_index :: presented w |}.

(** [frame_data[i] = slot]. *)
Definition set_slot (i : nat) (slot : frame_slot) (w : world) : world :=
  with_sw (with_frame_data (<[i := slot]> (frame_data (res (sw w)))) (sw w)) w.

(** WAIT_SLOT: the assertion on [frame_index], [vkWaitForFences] on the
    fence of the current slot and [vkResetFences]. *)
Definition wait_slot (w : world) : result world :=
  _ <- assert (frame_index w <? MAX_CONCURRENT_FRAMES)%nat ;;
  match frame_data (res (sw w)) !! frame_index w with
  | None => Stop Undefined
  | Some slot =>
      _ <- wait_for_fence (fence slot) ;;
      Ok (set_slot (frame_index w)
            {| fence := FenceUnsignaled; cmd_buffer := cmd_buffer slot |} w)
  end.

(** RECORD, SUBMIT and PRESENT for the acquired [image_index]: the
    commands go into the command buffer of the current slot, whose fence is
    handed to [vkQueueSubmit]. *)
Definition render_frame (t : F) (image_index : nat) (w : world) : result world :=
  cmds <- record_commands w image_index ;;
  let w := with_first (<[image_index := true]> (first w)) w in
  let w := set_slot (frame_index w)
             {| fence := FencePending (frame_index w); cmd_buffer := cmds |} w in
  Ok (finish_frame t image_index w).

(** One turn of [while (1)].  Leaving the loop through [break] makes
    [main] return 0. *)
Definition loop_body (dev : device) (inp : frame_input) (w : world) : result world :=
  let t := now inp in
  let w := advance_rotation t w in
  w <- update_window (events inp) w ;;
  if window_closed inp then Stop (MainReturns 0)
  else
    w <- wait_slot w ;;
    if (acquire_result inp =? VK_SUBOPTIMAL_KHR)
       || negb (width (sw w) =? new_width (sw w))
       || negb (height (sw w) =? new_height (sw w))
    then
      s <- recreate_swapchain dev (sw w) ;;
      Ok (with_first (replicate 4 false) (with_sw s w))
    else
      _ <- assert (acquire_result inp =? VK_SUCCESS) ;;
      _ <- assert (image_index inp <? 5)%nat ;;
      render_frame t (image_index inp) w.

Fixpoint run_frames (dev : device) (inputs : list frame_input) (w : world)
    : result world :=
  match inputs with
  | [] => Ok w
  | inp :: rest =>
      w <- loop_body dev inp w ;;
      run_frames dev rest w
  end.

(** *** [main] up to the loop *)

Inductive call : Type :=
| SetWsiCallbacks
| InitDisplay
| InitWindow
| InitVk
| PrintInfo
| CreateSurface
| ConfigureSwapchain
| CreateSwapchain
| InitGears.

(** The state in which the loop is entered. *)
Definition initial_world (s : swap_state) (g : gear_state) : world :=
  {| sw := s; gs := g; sc := initial_scene;
     tm := {| frames := 0; tRot0 := of_int (-1); tRate0 := of_int (-1) |};
     frame_index := 0%nat;
     first := replicate 4 false;
     presented := [] |}.

(** [main] from its first statement to the head of the loop: the calls it
    has made, in order, and either the state the loop starts from or the
    way the program stopped. *)
Definition main (c : libc) (dev : device) (argv : list string)
    : list call * result world :=
  match parse_args c argv default_options with
  | Usage => ([], Stop (MainReturns (-1)))
  | ParseStop why => ([], Stop why)
  | Parsed o =>
      let log := [SetWsiCallbacks; InitDisplay; InitWindow; InitVk] in
      match init_vk_failure dev with
      | Some why => (log, Stop why)
      | None =>
          if negb (check_sample_count_support dev (sample_count o)) then
            (log, error "Sample count not supported")
          else
            let log := if printInfo o then log ++ [PrintInfo] else log in
            let log := log ++ [CreateSurface] in
            if negb (create_surface_ok dev) then
              (log, error "Failed to create surface!")
            else
              let log := log ++ [ConfigureSwapchain] in
              match configure_swapchain dev o with
              | Stop why => (log, Stop why)
              | Ok cfg =>
                  let log := log ++ [CreateSwapchain] in
                  match create_swapchain dev
                          {| opts := o;
                             width := opt_width o; height := opt_height o;
                             new_width := opt_width o;
                             new_height := opt_height o;
                             cfg := cfg; res := no_resources |} with
                  | Stop why => (log, Stop why)
                  | Ok s =>
                      let log := log ++ [InitGears] in
                      match init_gears dev (use_shader_object o) with
                      | Stop why => (log, Stop why)
                      | Ok g => (log, Ok (initial_world s g))
                      end
                  end
              end
      end
  end.

(** *** Properties the theorems are about *)

(** A format can be a depth-stencil attachment with optimal tiling. *)
Definition depth_capable (dev : device) (format : Z) : Prop :=
  Z.land (optimalTilingFeatures dev format)
    VK_FORMAT_FEATURE_DEPTH_STENCIL_ATTACHMENT_BIT <> 0.

(** The record the loop of [init_gears] writes for a gear, every field as
    the [uint32_t] it is stored as, and the six words it takes. *)
Definition record_of (execution_set_index : Z) (g : gear) : indirect_data :=
  {| ies_0 := uint32 execution_set_index;
     ies_1 := uint32 1;
     draw := {| vertexCount := uint32 (vertex_count g);
                instanceCount := uint32 1;
                firstVertex := uint32 (first_vertex g);
                firstInstance := uint32 0 |} |}.

Definition words_of_record (r : indirect_data) : mapping :=
  [Some (ies_0 r); Some (ies_1 r); Some (vertexCount (draw r));
   Some (instanceCount (draw r)); Some (firstVertex (draw r));
   Some (firstInstance (draw r))].

(** The execution-set index the loop gives record [i]. *)
Definition index_of_record (use_shader_object : bool) (i : nat) : Z :=
  nth i (if use_shader_object then shader_idx else pipeline_idx) 0.

(** The attachment configuration of the claim: image format, depth
    format, sample count and the number of swapchain-image views. *)
Definition attachment_configuration (s : swap_state) : Z * Z * Z * Z :=
  (image_format (cfg s), depth_format (cfg s), sample_count (opts s),
   image_count (res s)).

(** The image barriers among recorded commands, in order. *)
Fixpoint image_barriers (cmds : list cmd)
    : list (VkImageLayout * VkImageLayout * Z) :=
  match cmds with
  | [] => []
  | CmdImageBarrier oldLayout newLayout image :: rest =>
      (oldLayout, newLayout, image) :: image_barriers rest
  | _ :: rest => image_barriers rest
  end.

(** The colour views a recorded frame renders into: the attachment and,
    with multisampling, the resolve target. *)
Fixpoint render_targets (cmds : list cmd) : list (VkImageView * option VkImageView) :=
  match cmds with
  | [] => []
  | CmdBeginRendering _ _ imageView resolveImageView _ :: rest =>
      (imageView, resolveImageView) :: render_targets rest
  | _ :: rest => render_targets rest
  end.

(** The fence of slot [i] is one a wait returns from: still signaled from
    its creation, or attached to the last submission of slot [i]. *)
Definition fence_ready (i : nat) (f : fence_state) : Prop :=
  f = FenceSignaledAtCreation \/ f = FencePending i.

Definition fences_ready (w : world) : Prop :=
  length (frame_data (res (sw w))) = MAX_CONCURRENT_FRAMES /\
  (frame_index w < MAX_CONCURRENT_FRAMES)%nat /\
  forall (i : nat) (slot : frame_slot),
    frame_data (res (sw w)) !! i = Some slot -> fence_ready i (fence slot).

(** A run that stops does not stop in a wait. *)
Definition never_hangs {A : Type} (r : result A) : Prop :=
  forall why, r = Stop why -> why <> Hang.

(** *** What a list of window events amounts to *)

(** The size of the last resize event, if there is one. *)
Fixpoint last_resize (events : list wsi_event) : option (Z * Z) :=
  match events with
  | [] => None
  | ev :: rest =>
      match last_resize rest with
      | Some size => Some size
      | None =>
          match ev with
          | EvResize p_new_width p_new_height => Some (p_new_width, p_new_height)
          | _ => None
          end
      end
  end.

(** Whether the A key goes down an odd number of times. *)
Fixpoint toggles (events : list wsi_event) : bool :=
  match events with
  | [] => false
  | EvKey true WSI_KEY_A :: rest => negb (toggles rest)
  | _ :: rest => toggles rest
  end.

(** Whether an event asks the program to leave: the window is closed or
    the Esc key goes down. *)
Definition asks_exit (ev : wsi_event) : bool :=
  match ev with
  | EvExit => true
  | EvKey true WSI_KEY_ESC => true
  | _ => false
  end.

(** The render area of every [vkCmdBeginRendering] and the viewport and
    scissor size of every [draw_gears] among recorded commands. *)
Fixpoint render_extents (cmds : list cmd) : list (Z * Z) :=
  match cmds with
  | [] => []
  | CmdBeginRendering width height _ _ _ :: rest =>
      (width, height) :: render_extents rest
  | CmdDrawGears width height _ :: rest =>
      (width, height) :: render_extents rest
  | _ :: rest => render_extents rest
  end.

(** A sample count the command line accepts. *)
Definition accepted_sample_counts : list Z := [1; 2; 4; 8; 16; 32; 64].

(** Options as the option loop can leave them when the numbers it reads
    are positive where it wants them so. *)
Definition options_in_range (o : options) : Prop :=
  In (sample_count o) accepted_sample_counts /\
  In (desidered_present_mode o)
    [VK_PRESENT_MODE_FIFO_KHR; VK_PRESENT_MODE_MAILBOX_KHR;
     VK_PRESENT_MODE_IMMEDIATE_KHR] /\
  0 < opt_width o /\ 0 < opt_height o.

End Renderer.

(** ** Example drivers, used to run the model *)

(** Two memory types: device local, and host visible and coherent. *)
Definition two_memory_types : VkPhysicalDeviceMemoryProperties :=
  {| memoryTypeCount := 2; memoryTypes := [1; 6] ++ replicate 30 0 |}.

(** A driver with three swapchain images, whose handles are 11, 12 and
    13; sample counts 1, 2, 4 and 8; the depth format D32_SFLOAT; memory
    mapped in whole pages of 4096 bytes. *)
Definition example_device : device :=
  {| mem_props := two_memory_types;
     framebufferColorSampleCounts := 15;
     framebufferDepthSampleCounts := 15;
     optimalTilingFeatures := fun format =>
       if format =? VK_FORMAT_D32_SFLOAT then 512 else 0;
     supportedCompositeAlpha := 1;
     surface_supported := true;
     caps_minImageCount := 3;
     caps_maxImageCount := 0;
     surface_present_modes := [VK_PRESENT_MODE_FIFO_KHR; VK_PRESENT_MODE_MAILBOX_KHR];
     surface_formats := [(44, 0); (50, 0)];
     swapchain_images := fun _ => [11; 12; 13];
     create_image_answer := fun info => Some (20 + im_samples info, 3);
     allocate_memory_ok := fun _ _ => true;
     create_image_view_ok := fun _ _ _ => true;
     create_buffer_answer := fun _ _ => Some 2;
     map_memory_answer := fun _ size => Some (4096 * ((size + 4095) / 4096));
     init_vk_failure := None;
     create_surface_ok := true |}.

(** The same driver on a surface that reports other image counts. *)
Definition with_image_counts (minImageCount maxImageCount : Z) (dev : device)
    : device :=
  {| mem_props := mem_props dev;
     framebufferColorSampleCounts := framebufferColorSampleCounts dev;
     framebufferDepthSampleCounts := framebufferDepthSampleCounts dev;
     optimalTilingFeatures := optimalTilingFeatures dev;
     supportedCompositeAlpha := supportedCompositeAlpha dev;
     surface_supported := surface_supported dev;
     caps_minImageCount := minImageCount;
     caps_maxImageCount := maxImageCount;
     surface_present_modes := surface_present_modes dev;
     surface_formats := surface_formats dev;
     swapchain_images := swapchain_images dev;
     create_image_answer := create_image_answer dev;
     allocate_memory_ok := allocate_memory_ok dev;
     create_image_view_ok := create_image_view_ok dev;
     create_buffer_answer := create_buffer_answer dev;
     map_memory_answer := map_memory_answer dev;
     init_vk_failure := init_vk_failure dev;
     create_surface_ok := create_surface_ok dev |}.

(** One reported memory type, host visible and coherent; the entry after
    it in the array holds the device-local flag. *)
Definition one_memory_type : VkPhysicalDeviceMemoryProperties :=
  {| memoryTypeCount := 1; memoryTypes := [6; 1] ++ replicate 30 0 |}.

Definition example_libc : libc :=
  {| strtol := fun s => if String.eqb s "16" then 16 else 4;
     strtok_x := fun _ => [] |}.

(** A surface that can hold one image only, and one that needs six. *)
Definition one_image_surface : device := with_image_counts 1 1 example_device.
Definition six_image_surface : device := with_image_counts 6 0 example_device.

(** A command line that asks for sixteen samples, which [example_device]
    does not have. *)
Definition sixteen_samples : list string := ["-samples"%string; "16"%string].

(** The state in which [main] enters the loop on [example_device] with no
    arguments, with the arithmetic of [whole_numbers]. *)
Definition example_world : world (F:=Z) :=
  match snd (main example_libc example_device []) with
  | Ok w => w
  | Stop _ =>
      initial_world
        {| opts := default_options;
           width := 0; height := 0; new_width := 0; new_height := 0;
           cfg := {| present_mode := 0; min_image_count := 0;
                     image_format := 0; color_space := 0; depth_format := 0 |};
           res := no_resources |}
        {| execution_set := []; gears := [];
           ubo_memory := 0; vertex_memory := 0; indirect_memory := 0;
           indirect_map := [] |}
  end.

(** The driver of [example_device] when a mapping holds the bytes asked
    for and no more. *)
Definition exact_mapping_device : device :=
  {| mem_props := mem_props example_device;
     framebufferColorSampleCounts := framebufferColorSampleCounts example_device;
     framebufferDepthSampleCounts := framebufferDepthSampleCounts example_device;
     optimalTilingFeatures := optimalTilingFeatures example_device;
     supportedCompositeAlpha := supportedCompositeAlpha example_device;
     surface_supported := surface_supported example_device;
     caps_minImageCount := caps_minImageCount example_device;
     caps_maxImageCount := caps_maxImageCount example_device;
     surface_present_modes := surface_present_modes example_device;
     surface_formats := surface_formats example_device;
     swapchain_images := swapchain_images example_device;
     create_image_answer := create_image_answer example_device;
     allocate_memory_ok := allocate_memory_ok example_device;
     create_image_view_ok := create_image_view_ok example_device;
     create_buffer_answer := create_buffer_answer example_device;
     map_memory_answer := fun _ size => Some size;
     init_vk_failure := init_vk_failure example_device;
     create_surface_ok := create_surface_ok example_device |}.

(** A turn of the loop at time [t] in which the window delivers [evs] and
    the driver hands out the image [idx]. *)
Definition turn (t : Z) (evs : list wsi_event) (idx : nat) : frame_input (F:=Z) :=
  {| now := t; events := evs; window_closed := false;
     acquire_result := VK_SUCCESS; image_index := idx |}.

(** Three memory types: device local; host visible and coherent; device
    local and lazily allocated. *)
Definition three_memory_types : VkPhysicalDeviceMemoryProperties :=
  {| memoryTypeCount := 3; memoryTypes := [1; 6; 17] ++ replicate 29 0 |}.

(** ** Facts about the memory-type search *)

Lemma shiftl_one (i : Z) : 0 <= i -> Z.shiftl 1 i = 2 ^ i.
Proof. intros Hi. rewrite Z.shiftl_mul_pow2 by exact Hi. lia. Qed.

Lemma land_pow2_testbit (a i : Z) :
  0 <= i -> (Z.land a (2 ^ i) =? 0) = negb (Z.testbit a i).
Proof.
  intros Hi.
  destruct (Z.testbit a i) eqn:Hbit; simpl.
  - apply Z.eqb_neq. intros Hzero.
    assert (Hand : Z.testbit (Z.land a (2 ^ i)) i = true).
    { rewrite Z.land_spec, Hbit, Z.pow2_bits_true by exact Hi. reflexivity. }
    rewrite Hzero, Z.bits_0 in Hand. discriminate.
  - apply Z.eqb_eq. apply Z.bits_inj'. intros n Hn.
    rewrite Z.land_spec, Z.bits_0.
    destruct (Z.eq_dec i n) as [->|Hne].
    + rewrite Hbit. reflexivity.
    + rewrite Z.pow2_bits_false by exact Hne. apply andb_false_r.
Qed.

Lemma testbit_pow2_le (a i : Z) :
  0 <= a -> 0 <= i -> Z.testbit a i = true -> 2 ^ i <= a.
Proof.
  intros Ha Hi Hbit.
  destruct (Z_lt_le_dec a (2 ^ i)) as [Hlt|Hle]; [|exact Hle].
  rewrite Z.testbit_true in Hbit by exact Hi.
  rewrite Z.div_small in Hbit by lia. discriminate.
Qed.

Lemma find_memory_type_from_finds (mp : VkPhysicalDeviceMemoryProperties)
    (memoryTypeBits flags j : Z) :
  0 <= memoryTypeBits ->
  memoryTypeCount mp <= 32 ->
  suitable mp memoryTypeBits flags j ->
  forall (left : nat) (i : Z),
    i + Z.of_nat left = 32 -> 0 <= i <= j ->
    exists r, find_memory_type_from mp memoryTypeBits flags left i = Ok r /\
              suitable mp memoryTypeBits flags r /\ i <= r <= j.
Proof.
  intros Hbits Hcount (Hj & Hjbit & Hjflags).
  induction left as [|left IH]; intros i Hleft Hi.
  - lia.
  - cbn [find_memory_type_from].
    assert (Hpow : 2 ^ i <= memoryTypeBits).
    { transitivity (2 ^ j).
      - apply Z.pow_le_mono_r; lia.
      - apply testbit_pow2_le; lia || assumption. }
    rewrite shiftl_one by lia.
    replace (2 ^ i <=? memoryTypeBits) with true by (symmetry; apply Z.leb_le; lia).
    replace (i <=? memoryTypeCount mp) with true by (symmetry; apply Z.leb_le; lia).
    cbn [andb].
    rewrite land_pow2_testbit, negb_involutive by lia.
    destruct (Z.testbit memoryTypeBits i
              && (Z.land (propertyFlags mp i) flags =? flags)) eqn:Hhere.
    + apply andb_true_iff in Hhere as [Hbit Hflags].
      apply Z.eqb_eq in Hflags.
      exists i. repeat split; try assumption; lia.
    + assert (i <> j).
      { intros ->. rewrite Hjbit, Hjflags, Z.eqb_refl in Hhere. discriminate. }
      destruct (IH (i + 1)) as (r & Hr & Hsuit & Hrange); try lia.
      exists r. split; [exact Hr|]. split; [exact Hsuit|lia].
Qed.

(** The search finds a reported memory type that the resource accepts and
    that has the wanted flags whenever there is one; it returns the first
    of them. *)
Lemma find_memory_type_finds (mp : VkPhysicalDeviceMemoryProperties)
    (memoryTypeBits flags j : Z) :
  0 <= memoryTypeBits ->
  memoryTypeCount mp <= 32 ->
  suitable mp memoryTypeBits flags j ->
  exists i, find_memory_type mp memoryTypeBits flags = Ok i /\
            suitable mp memoryTypeBits flags i /\ i <= j.
Proof.
  intros Hbits Hcount Hj.
  destruct (find_memory_type_from_finds mp memoryTypeBits flags j
              Hbits Hcount Hj 32 0) as (r & Hr & Hsuit & Hrange).
  - reflexivity.
  - destruct Hj as (Hj & _). lia.
  - exists r. split; [exact Hr|]. split; [exact Hsuit|lia].
Qed.

Lemma find_memory_type_from_none (mp : VkPhysicalDeviceMemoryProperties)
    (memoryTypeBits flags : Z) :
  0 <= memoryTypeBits < 2 ^ memoryTypeCount mp ->
  0 <= memoryTypeCount mp < 32 ->
  (forall i, ~ suitable mp memoryTypeBits flags i) ->
  forall (left : nat) (i : Z),
    i + Z.of_nat left = 32 -> 0 <= i < 32 ->
    find_memory_type_from mp memoryTypeBits flags left i = Ok (-1).
Proof.
  intros Hbits Hcount Hnone.
  assert (Hstop : forall i, 0 <= i -> 2 ^ i <= memoryTypeBits ->
                            i < memoryTypeCount mp).
  { intros i Hi Hpow.
    destruct (Z_lt_le_dec i (memoryTypeCount mp)) as [Hlt|Hge]; [exact Hlt|].
    assert (2 ^ memoryTypeCount mp <= 2 ^ i) by (apply Z.pow_le_mono_r; lia).
    lia. }
  induction left as [|left IH]; intros i Hleft Hi.
  - lia.
  - cbn [find_memory_type_from]. rewrite shiftl_one by lia.
    destruct (Z.leb_spec (2 ^ i) memoryTypeBits) as [Hpow|_]; [|reflexivity].
    assert (Hlt : i < memoryTypeCount mp) by (apply Hstop; lia).
    destruct (Z.leb_spec i (memoryTypeCount mp)) as [_|Habs]; [|lia].
    cbn [andb]. rewrite land_pow2_testbit, negb_involutive by lia.
    destruct (Z.testbit memoryTypeBits i
              && (Z.land (propertyFlags mp i) flags =? flags)) eqn:Hhere.
    + apply andb_true_iff in Hhere as [Hbit Hflags]. apply Z.eqb_eq in Hflags.
      exfalso. apply (Hnone i). split; [lia|]. split; assumption.
    + apply IH; lia.
Qed.

(** When the resource names reported memory types only, as a driver that
    follows the Vulkan rules does, and fewer than 32 types are reported,
    the search returns -1 if none of them is suitable. *)
Lemma find_memory_type_none (mp : VkPhysicalDeviceMemoryProperties)
    (memoryTypeBits flags : Z) :
  0 <= memoryTypeBits < 2 ^ memoryTypeCount mp ->
  0 <= memoryTypeCount mp < 32 ->
  (forall i, ~ suitable mp memoryTypeBits flags i) ->
  find_memory_type mp memoryTypeBits flags = Ok (-1).
Proof.
  intros Hbits Hcount Hnone.
  apply find_memory_type_from_none; try assumption; lia.
Qed.





(** The loop bound is [<=], one entry too far.  A resource that named the
    type behind the last reported one, which the Vulkan rules exclude,
    would get it: one reported memory type, host visible and coherent; the
    resource names bit 1 and device-local memory is wanted.  No reported
    type is suitable, yet the search looks at entry [memoryTypeCount] of
    the array and returns 1. *)
Remark find_memory_type_reads_past_count :
  find_memory_type one_memory_type 2 VK_MEMORY_PROPERTY_DEVICE_LOCAL_BIT = Ok 1 /\
  memoryTypeCount one_memory_type = 1 /\
  ~ (exists i, suitable one_memory_type 2 VK_MEMORY_PROPERTY_DEVICE_LOCAL_BIT i).
Proof.
  split; [reflexivity|]. split; [reflexivity|].
  intros (i & (Hlo & Hhi) & Hbit & _).
  cbn in Hhi. assert (i = 0) by lia. subst i. discriminate Hbit.
Qed.

(** ** Facts about [configure_swapchain] *)

Lemma choose_present_mode_found (present_modes : list Z) (desidered fallback : Z) :
  In desidered present_modes ->
  choose_present_mode present_modes desidered fallback = desidered.
Proof.
  induction present_modes as [|m rest IH]; intros Hin.
  - destruct Hin.
  - cbn [choose_present_mode].
    destruct (Z.eqb_spec m desidered) as [_|Hne]; [reflexivity|].
    destruct Hin as [Heq|Hin]; [contradiction|]. exact (IH Hin).
Qed.

Lemma choose_present_mode_missing (present_modes : list Z) (desidered fallback : Z) :
  ~ In desidered present_modes ->
  choose_present_mode present_modes desidered fallback = fallback.
Proof.
  induction present_modes as [|m rest IH]; intros Hnot.
  - reflexivity.
  - cbn [choose_present_mode].
    destruct (Z.eqb_spec m desidered) as [Heq|_].
    + exfalso. apply Hnot. left. exact Heq.
    + apply IH. intros Hin. apply Hnot. right. exact Hin.
Qed.

(** What [configure_swapchain] returns, field by field, when it returns. *)
Lemma configure_swapchain_fields (dev : device) (o : options) (c : swap_config) :
  configure_swapchain dev o = Ok c ->
  present_mode c =
    choose_present_mode (surface_present_modes dev) (desidered_present_mode o)
      VK_PRESENT_MODE_FIFO_KHR /\
  choose_min_image_count (caps_minImageCount dev) (caps_maxImageCount dev)
    = Ok (min_image_count c) /\
  depth_format c = choose_depth_format dev.
Proof.
  unfold configure_swapchain. intros H.
  destruct (assert (negb (Z.land (supportedCompositeAlpha dev)
                            VK_COMPOSITE_ALPHA_OPAQUE_BIT_KHR =? 0)));
    [|discriminate H].
  destruct (assert (surface_supported dev)); [|discriminate H].
  cbn [bind] in H.
  destruct (choose_min_image_count (caps_minImageCount dev)
              (caps_maxImageCount dev)) as [n|why]; [|discriminate H].
  cbn [bind] in H.
  destruct (surface_formats dev) as [|first_format rest]; [discriminate H|].
  injection H as <-. cbn. repeat split; reflexivity.
Qed.

(** [configure_swapchain] returns on every surface that passes its two
    assertions, asks for at most five images and reports a format. *)
Lemma configure_swapchain_returns (dev : device) (o : options) :
  Z.land (supportedCompositeAlpha dev) VK_COMPOSITE_ALPHA_OPAQUE_BIT_KHR <> 0 ->
  surface_supported dev = true ->
  caps_minImageCount dev <= 5 ->
  surface_formats dev <> [] ->
  exists c, configure_swapchain dev o = Ok c.
Proof.
  intros Halpha Hsup Hmin Hfmt. unfold configure_swapchain.
  apply Z.eqb_neq in Halpha. rewrite Halpha, Hsup. cbn [negb assert bind].
  unfold choose_min_image_count, image_data_size.
  destruct (2 <? caps_minImageCount dev).
  - destruct (Z.ltb_spec 5 (caps_minImageCount dev)); [lia|]. cbn [bind].
    destruct (surface_formats dev); [contradiction|].
    destruct ((0 <? caps_maxImageCount dev)
              && (caps_maxImageCount dev <? caps_minImageCount dev));
      eexists; reflexivity.
  - cbn [bind].
    destruct (surface_formats dev); [contradiction|].
    destruct ((0 <? caps_maxImageCount dev) && (caps_maxImageCount dev <? 2));
      eexists; reflexivity.
Qed.

(** C6: the present mode is the wanted one when the surface lists it and
    FIFO otherwise. *)
Theorem configure_swapchain_present_mode (dev : device) (o : options)
    (c : swap_config) :
  configure_swapchain dev o = Ok c ->
  (In (desidered_present_mode o) (surface_present_modes dev) ->
   present_mode c = desidered_present_mode o) /\
  (~ In (desidered_present_mode o) (surface_present_modes dev) ->
   present_mode c = VK_PRESENT_MODE_FIFO_KHR).
Proof.
  intros H. apply configure_swapchain_fields in H as (Hmode & _ & _).
  rewrite Hmode. split; intros Hin.
  - apply choose_present_mode_found. exact Hin.
  - apply choose_present_mode_missing. exact Hin.
Qed.

(** C5: of D32_SFLOAT and X8_D24_UNORM_PACK32, one of which every driver
    supports, the depth format chosen is one the driver supports as a
    depth-stencil attachment; D32_SFLOAT is taken when it is supported. *)
Theorem configure_swapchain_depth_format (dev : device) (o : options)
    (c : swap_config) :
  configure_swapchain dev o = Ok c ->
  depth_capable dev VK_FORMAT_D32_SFLOAT \/
  depth_capable dev VK_FORMAT_X8_D24_UNORM_PACK32 ->
  (depth_format c = VK_FORMAT_D32_SFLOAT \/
   depth_format c = VK_FORMAT_X8_D24_UNORM_PACK32) /\
  depth_capable dev (depth_format c) /\
  (depth_capable dev VK_FORMAT_D32_SFLOAT ->
   depth_format c = VK_FORMAT_D32_SFLOAT).
Proof.
  intros H Hone. apply configure_swapchain_fields in H as (_ & _ & Hdepth).
  rewrite Hdepth. unfold choose_depth_format, depth_capable in *.
  destruct (Z.eqb_spec
              (Z.land (optimalTilingFeatures dev VK_FORMAT_D32_SFLOAT)
                 VK_FORMAT_FEATURE_DEPTH_STENCIL_ATTACHMENT_BIT) 0)
    as [Hno|Hyes]; cbn [negb].
  - split; [right; reflexivity|]. split.
    + destruct Hone as [Hd32|Hd24]; [contradiction|exact Hd24].
    + intros Hd32. contradiction.
  - split; [left; reflexivity|]. split; [exact Hyes|]. intros _. reflexivity.
Qed.

(** The value [choose_min_image_count] settles on. *)
Lemma choose_min_image_count_value (minImageCount maxImageCount n : Z) :
  choose_min_image_count minImageCount maxImageCount = Ok n ->
  minImageCount <= 5 /\
  n = (if (0 <? maxImageCount) && (maxImageCount <? Z.max 2 minImageCount)
       then maxImageCount else Z.max 2 minImageCount).
Proof.
  unfold choose_min_image_count, image_data_size.
  destruct (Z.ltb_spec 2 minImageCount) as [Hbig|Hsmall].
  - destruct (Z.ltb_spec 5 minImageCount); [discriminate|].
    cbn [bind]. rewrite Z.max_r by lia.
    destruct ((0 <? maxImageCount) && (maxImageCount <? minImageCount));
      intros [= <-]; split; lia || reflexivity.
  - cbn [bind]. rewrite Z.max_l by lia.
    destruct ((0 <? maxImageCount) && (maxImageCount <? 2));
      intros [= <-]; split; lia || reflexivity.
Qed.

(** The image count [configure_swapchain] asks for, and how a surface
    minimum above five stops it. *)
Lemma min_image_count_settled (dev : device) (o : options) :
  (forall c, configure_swapchain dev o = Ok c ->
     min_image_count c =
       (if (0 <? caps_maxImageCount dev)
           && (caps_maxImageCount dev <? Z.max 2 (caps_minImageCount dev))
        then caps_maxImageCount dev
        else Z.max 2 (caps_minImageCount dev)) /\
     (0 < caps_maxImageCount dev -> min_image_count c <= caps_maxImageCount dev) /\
     min_image_count c <= 5) /\
  (5 < caps_minImageCount dev ->
   (exists why, configure_swapchain dev o = Stop why) /\
   (Z.land (supportedCompositeAlpha dev) VK_COMPOSITE_ALPHA_OPAQUE_BIT_KHR <> 0 ->
    surface_supported dev = true ->
    configure_swapchain dev o =
      error "surface_caps.minImageCount is too large (is: %d, max: %d)")).
Proof.
  split.
  - intros c H. apply configure_swapchain_fields in H as (_ & Hmin & _).
    apply choose_min_image_count_value in Hmin as (Hle & ->).
    destruct (Z.ltb_spec 0 (caps_maxImageCount dev));
      destruct (Z.ltb_spec (caps_maxImageCount dev)
                  (Z.max 2 (caps_minImageCount dev)));
      cbn [andb]; repeat split; lia.
  - intros Hbig.
    assert (Hmin : choose_min_image_count (caps_minImageCount dev)
                     (caps_maxImageCount dev) =
                   error "surface_caps.minImageCount is too large (is: %d, max: %d)").
    { unfold choose_min_image_count, image_data_size.
      destruct (Z.ltb_spec 2 (caps_minImageCount dev)); [|lia].
      destruct (Z.ltb_spec 5 (caps_minImageCount dev)); [|lia].
      reflexivity. }
    split.
    + unfold configure_swapchain.
      destruct (assert _); [|eexists; reflexivity].
      destruct (assert _); [|eexists; reflexivity].
      cbn [bind]. rewrite Hmin. eexists. reflexivity.
    + intros Halpha Hsup. unfold configure_swapchain.
      apply Z.eqb_neq in Halpha. rewrite Halpha, Hsup.
      cbn [negb assert bind]. rewrite Hmin. reflexivity.
Qed.

(** ** Facts about the renderer *)

Lemma bind_Ok_inv {A B : Type} (r : result A) (k : A -> result B) (b : B) :
  bind r k = Ok b -> exists a, r = Ok a /\ k a = Ok b.
Proof.
  destruct r as [a|why]; cbn [bind]; intros H.
  - exists a. split; [reflexivity|exact H].
  - discriminate H.
Qed.

Tactic Notation "bind_inv" hyp(H) "as" ident(a) ident(Ha) :=
  apply bind_Ok_inv in H; destruct H as (a & Ha & H).

(** The loop on three gears and a fresh mapping of [n] words: with fewer
    than 18 words a store falls past the mapping. *)
Lemma write_indirect_records_short (use_shader_object : bool) (g0 g1 g2 : gear)
    (n : nat) :
  (n < 18)%nat ->
  write_indirect_records use_shader_object [g0; g1; g2] 3 0 (replicate n None) =
  Stop Undefined.
Proof.
  intros Hn.
  do 18 (destruct n as [|n]; [destruct use_shader_object; reflexivity|]).
  lia.
Qed.

(** With 18 words or more the loop runs to its end, leaves the three
    records in the first 18 and the rest as it was. *)
Lemma write_indirect_records_room (use_shader_object : bool) (g0 g1 g2 : gear)
    (k : nat) :
  write_indirect_records use_shader_object [g0; g1; g2] 3 0
    (replicate (18 + k) None) =
  Ok (words_of_record (record_of (index_of_record use_shader_object 0) g0) ++
      words_of_record (record_of (index_of_record use_shader_object 1) g1) ++
      words_of_record (record_of (index_of_record use_shader_object 2) g2) ++
      replicate k None).
Proof. destruct use_shader_object; reflexivity. Qed.

(** Behind the 18 words of three records nothing has been stored, so no
    fourth record can be read back. *)
Lemma indirect_record_fresh (words : mapping) (k i : nat) :
  length words = 18%nat -> (3 <= i)%nat ->
  indirect_record (words ++ replicate k None) i = None.
Proof.
  intros Hlen Hi. unfold indirect_record, mapping in *.
  destruct ((words ++ replicate k None) !! ies_at i 0) as [[word|]|] eqn:Hword.
  - exfalso. unfold ies_at, words_of_indirect_data in Hword.
    rewrite lookup_app_r in Hword by lia.
    apply lookup_replicate in Hword as [Hnone _]. discriminate Hnone.
  - reflexivity.
  - reflexivity.
Qed.

(** The indirect buffer is created with room for three records of one
    index and one draw command; three [indirect_data] records are
    larger. *)
Remark indirect_buffer_smaller_than_records :
  indirect_size = 60 /\ 3 * sizeof_indirect_data = 72.
Proof. split; reflexivity. Qed.

Section RendererFacts.

Context {F : Type} {cf : CFloat F}.

(** What a run of [init_gears] that returns has done: the driver gave the
    indirect mapping at least the 72 bytes of three records, and the
    memory holds the three records followed by words never stored to. *)
Lemma init_gears_inv (dev : device) (use_shader_object : bool) (g : gear_state) :
  init_gears dev use_shader_object = Ok g ->
  exists (bytes : Z) (k : nat) (g0 g1 g2 : gear),
    map_memory_answer dev (indirect_memory g) indirect_size = Some bytes /\
    3 * sizeof_indirect_data <= bytes /\
    gears g = [g0; g1; g2] /\
    (forall (index : Z) (gear_i : gear), In gear_i [g0; g1; g2] ->
       draw (record_of index gear_i) =
         {| vertexCount := vertex_count gear_i; instanceCount := 1;
            firstVertex := first_vertex gear_i; firstInstance := 0 |}) /\
    execution_set g =
      (if use_shader_object
       then [VertexShader 0; FragmentShader; VertexShader 1; VertexShader 2]
       else [Pipeline 0; Pipeline 1; Pipeline 2]) /\
    indirect_map g =
      words_of_record (record_of (index_of_record use_shader_object 0) g0) ++
      words_of_record (record_of (index_of_record use_shader_object 1) g1) ++
      words_of_record (record_of (index_of_record use_shader_object 2) g2) ++
      replicate k None.
Proof.
  unfold init_gears. intros H.
  bind_inv H as ubo_buffer Hubo. bind_inv H as vertex_buffer Hvertex.
  bind_inv H as ubo_mem Hubo_mem. bind_inv H as vertex_mem Hvertex_mem.
  bind_inv H as indirect_buffer Hind. bind_inv H as indirect_mem Hind_mem.
  bind_inv H as records Hrecords.
  destruct (map_memory_answer dev vertex_mem _) as [vertex_bytes|];
    [|discriminate H].
  destruct (vertex_bytes <? _); [discriminate H|].
  injection H as <-. cbn [gears indirect_map indirect_memory execution_set].
  unfold map_memory in Hrecords.
  destruct (map_memory_answer dev indirect_mem indirect_size) as [bytes|];
    [|discriminate Hrecords].
  change (length _) with 3%nat in Hrecords.
  destruct (Nat.ltb_spec (Z.to_nat (bytes / 4)) 18) as [Hshort|Hroom].
  { rewrite write_indirect_records_short in Hrecords by exact Hshort.
    discriminate Hrecords. }
  replace (Z.to_nat (bytes / 4))
    with (18 + (Z.to_nat (bytes / 4) - 18))%nat in Hrecords by lia.
  rewrite write_indirect_records_room in Hrecords. injection Hrecords as <-.
  exists bytes, (Z.to_nat (bytes / 4) - 18)%nat. do 3 eexists.
  split; [reflexivity|].
  split.
  { change (3 * sizeof_indirect_data) with 72.
    pose proof (Z.mul_div_le bytes 4 ltac:(lia)). lia. }
  split; [reflexivity|].
  split; [|split; [destruct use_shader_object; reflexivity|reflexivity]].
  intros index gear_i [<-|[<-|[<-|[]]]]; reflexivity.
Qed.

(** C2: the indirect buffer is created, allocated and mapped with
    [indirect_size] = 60 bytes, fewer than the 72 bytes of three
    [indirect_data] records.  On a driver that creates the buffers, finds
    memory for them and maps the bytes asked for and no more, the loop
    stores the draw parameters of record 2 past the mapping and
    [init_gears] is undefined, in both modes.  A run that returns had a
    mapping of 72 bytes or more from the driver, and left exactly three
    records there: record [i] for gear [i], its execution-set index entry
    [i] of 0, 2, 3 with shader objects and of 0, 1, 2 with pipelines,
    drawing [vertex_count] vertices from [first_vertex], one instance,
    first instance 0. *)
Theorem init_gears_indirect_records_past_mapping (dev : device)
    (use_shader_object : bool) :
  indirect_size < 3 * sizeof_indirect_data /\
  ((forall size usage : Z, exists buffer memory : Z,
      create_buffer dev size usage = Ok buffer /\
      allocate_buffer_mem dev buffer = Ok memory) ->
   (forall memory : Z,
      map_memory_answer dev memory indirect_size = Some indirect_size) ->
   init_gears dev use_shader_object = Stop Undefined) /\
  (forall g : gear_state,
     init_gears dev use_shader_object = Ok g ->
     (exists bytes : Z,
        map_memory_answer dev (indirect_memory g) indirect_size = Some bytes /\
        3 * sizeof_indirect_data <= bytes) /\
     length (gears g) = 3%nat /\
     (forall i : nat, (3 <= i)%nat -> indirect_record (indirect_map g) i = None) /\
     forall (i : nat) (gear_i : gear),
       gears g !! i = Some gear_i ->
       exists (r : indirect_data) (index : Z),
         indirect_record (indirect_map g) i = Some r /\
         (if use_shader_object then [0; 2; 3] else [0; 1; 2]) !! i = Some index /\
         ies_0 r = index /\
         draw r = {| vertexCount := vertex_count gear_i;
                     instanceCount := 1;
                     firstVertex := first_vertex gear_i;
                     firstInstance := 0 |}).
Proof.
  split; [reflexivity|]. split.
  - intros Hbuffers Hexact. unfold init_gears. cbv zeta.
    repeat match goal with
    | |- context [create_buffer dev ?size ?usage] =>
        let buffer := fresh "buffer" in
        let memory := fresh "memory" in
        let Hb := fresh "Hb" in
        let Hm := fresh "Hm" in
        destruct (Hbuffers size usage) as (buffer & memory & Hb & Hm);
        rewrite Hb; cbn [bind]; try rewrite Hm; cbn [bind]
    | |- context [allocate_buffer_mem dev ?buffer] =>
        match goal with
        | Hm : allocate_buffer_mem dev buffer = Ok _ |- _ =>
            rewrite Hm; cbn [bind]
        end
    end.
    unfold map_memory. rewrite Hexact.
    change (length _) with 3%nat.
    rewrite write_indirect_records_short by (vm_compute; lia).
    reflexivity.
  - intros g Hg.
    apply init_gears_inv in Hg
      as (bytes & k & g0 & g1 & g2 & Hmap & Hbytes & -> & Hdraw & _ & ->).
    split; [exists bytes; split; assumption|].
    split; [reflexivity|].
    split; [intros i Hi; rewrite !app_assoc; apply indirect_record_fresh;
            [reflexivity|exact Hi]|].
    intros i gear_i Hi.
    destruct use_shader_object;
      destruct i as [|[|[|i]]]; cbn in Hi; try discriminate Hi;
      injection Hi as <-;
      eexists; eexists;
      (split; [reflexivity|]);
      (split; [reflexivity|]);
      (split; [reflexivity|]);
      apply Hdraw; cbn; auto.
Qed.

Lemma check_sample_count_support_false (dev : device) (samples : Z) :
  Z.land samples (framebufferColorSampleCounts dev) = 0 \/
  Z.land samples (framebufferDepthSampleCounts dev) = 0 ->
  check_sample_count_support dev samples = false.
Proof.
  unfold check_sample_count_support. intros [H|H]; rewrite H; cbn.
  - reflexivity.
  - apply andb_false_r.
Qed.

(** C4: when the sample count taken from the command line misses in the
    colour or in the depth sample-count mask of the device, [main] stops
    before it has called [configure_swapchain] or [create_swapchain], and
    it stops in [error("Sample count not supported")] unless [init_vk] has
    stopped it earlier. *)
Theorem main_rejects_unsupported_sample_count (c : libc) (dev : device)
    (argv : list string) (o : options) :
  parse_args c argv default_options = Parsed o ->
  Z.land (sample_count o) (framebufferColorSampleCounts dev) = 0 \/
  Z.land (sample_count o) (framebufferDepthSampleCounts dev) = 0 ->
  (exists why, snd (main (F:=F) c dev argv) = Stop why) /\
  (init_vk_failure dev = None ->
   snd (main (F:=F) c dev argv) = error "Sample count not supported") /\
  ~ In ConfigureSwapchain (fst (main (F:=F) c dev argv)) /\
  ~ In CreateSwapchain (fst (main (F:=F) c dev argv)).
Proof.
  intros Hparse Hmask.
  apply check_sample_count_support_false in Hmask.
  unfold main. rewrite Hparse.
  destruct (init_vk_failure dev) as [why|].
  - cbn [fst snd]. split; [exists why; reflexivity|].
    split; [discriminate|].
    split; cbn; intros H; repeat (destruct H as [H|H]; [discriminate H|]);
      exact H.
  - rewrite Hmask. cbn [negb fst snd].
    split; [eexists; reflexivity|].
    split; [reflexivity|].
    split; cbn; intros H; repeat (destruct H as [H|H]; [discriminate H|]);
      exact H.
Qed.

(** [main] calls [create_swapchain] only after [configure_swapchain] has
    returned. *)
Lemma main_stops_before_create_swapchain (c : libc) (dev : device)
    (argv : list string) :
  (forall o, exists why, configure_swapchain dev o = Stop why) ->
  ~ In CreateSwapchain (fst (main (F:=F) c dev argv)).
Proof.
  intros Hstops. unfold main.
  destruct (parse_args c argv default_options) as [o| |why];
    [|intros []|intros []].
  destruct (init_vk_failure dev);
    [cbn; intros H; repeat (destruct H as [H|H]; [discriminate H|]); exact H|].
  destruct (negb (check_sample_count_support dev (sample_count o)));
    [cbn; intros H; repeat (destruct H as [H|H]; [discriminate H|]); exact H|].
  destruct (Hstops o) as (why & ->).
  destruct (negb (create_surface_ok dev)), (printInfo o); cbn;
    intros H; repeat (destruct H as [H|H]; [discriminate H|]); exact H.
Qed.

(** C10, as the code has it: the image count asked for is the larger of 2
    and the surface minimum, lowered to the surface maximum when that is
    nonzero and smaller; it is never above 5, and a surface minimum above
    5 stops [configure_swapchain], with the diagnostic of [error] once the
    two assertions have passed, so that [main] never reaches
    [create_swapchain]. *)
Theorem configure_swapchain_min_image_count (dev : device) (o : options) :
  (forall c, configure_swapchain dev o = Ok c ->
     min_image_count c =
       (if (0 <? caps_maxImageCount dev)
           && (caps_maxImageCount dev <? Z.max 2 (caps_minImageCount dev))
        then caps_maxImageCount dev
        else Z.max 2 (caps_minImageCount dev)) /\
     (0 < caps_maxImageCount dev -> min_image_count c <= caps_maxImageCount dev) /\
     min_image_count c <= 5) /\
  (5 < caps_minImageCount dev ->
   (exists why, configure_swapchain dev o = Stop why) /\
   (Z.land (supportedCompositeAlpha dev) VK_COMPOSITE_ALPHA_OPAQUE_BIT_KHR <> 0 ->
    surface_supported dev = true ->
    configure_swapchain dev o =
      error "surface_caps.minImageCount is too large (is: %d, max: %d)") /\
   forall (c : libc) (argv : list string),
     ~ In CreateSwapchain (fst (main (F:=F) c dev argv))).
Proof.
  split; [exact (proj1 (min_image_count_settled dev o))|].
  intros Hbig.
  destruct (proj2 (min_image_count_settled dev o) Hbig) as (Hstop & Hfatal).
  split; [exact Hstop|]. split; [exact Hfatal|].
  intros c argv. apply main_stops_before_create_swapchain.
  intros o'. exact (proj1 (proj2 (min_image_count_settled dev o') Hbig)).
Qed.

(** What [create_swapchain] leaves behind when it returns. *)
Lemma create_swapchain_state (dev : device) (s s' : swap_state (F:=F)) :
  create_swapchain dev s = Ok s' ->
  opts s' = opts s /\ cfg s' = cfg s /\
  width s' = width s /\ height s' = height s /\
  new_width s' = new_width s /\ new_height s' = new_height s /\
  swapchain (res s') = Some (swapchain_create_info s) /\
  image_count (res s') =
    Z.of_nat (length (swapchain_images dev (swapchain_create_info s))) /\
  frame_data (res s') =
    replicate MAX_CONCURRENT_FRAMES
      {| fence := FenceSignaledAtCreation; cmd_buffer := [] |}.
Proof.
  unfold create_swapchain. intros H.
  bind_inv H as u Hassert. bind_inv H as msaa Hmsaa.
  bind_inv H as depth Hdepth. bind_inv H as data Hdata.
  injection H as <-. cbn. repeat split; reflexivity.
Qed.

Lemma recreate_swapchain_state (dev : device) (s s' : swap_state (F:=F)) :
  recreate_swapchain dev s = Ok s' ->
  opts s' = opts s /\ cfg s' = cfg s /\
  width s' = new_width s /\ height s' = new_height s /\
  new_width s' = new_width s /\ new_height s' = new_height s /\
  swapchain_create_info s' =
    swapchain_create_info (with_size (new_width s) (new_height s) s) /\
  image_count (res s') =
    Z.of_nat (length (swapchain_images dev (swapchain_create_info s'))) /\
  frame_data (res s') =
    replicate MAX_CONCURRENT_FRAMES
      {| fence := FenceSignaledAtCreation; cmd_buffer := [] |}.
Proof.
  unfold recreate_swapchain. intros H.
  apply create_swapchain_state in H
    as (Ho & Hc & Hw & Hh & Hnw & Hnh & _ & Hcount & Hframes).
  cbn in Ho, Hc, Hw, Hh, Hnw, Hnh.
  assert (Hinfo : swapchain_create_info s' =
                  swapchain_create_info (with_size (new_width s) (new_height s) s)).
  { unfold swapchain_create_info. rewrite Hc, Hw, Hh. reflexivity. }
  repeat split; try assumption.
  rewrite Hcount, Hinfo. reflexivity.
Qed.

Lemma recreate_swapchain_repeats (dev1 dev2 : device)
    (s s1 s2 : swap_state (F:=F)) :
  recreate_swapchain dev1 s = Ok s1 ->
  recreate_swapchain dev2 s1 = Ok s2 ->
  length (swapchain_images dev2 (swapchain_create_info s1)) =
  length (swapchain_images dev1 (swapchain_create_info s1)) ->
  attachment_configuration s2 = attachment_configuration s1 /\
  width s2 = width s1 /\ height s2 = height s1.
Proof.
  intros H1 H2 Hsame.
  apply recreate_swapchain_state in H1
    as (Ho1 & Hc1 & Hw1 & Hh1 & Hnw1 & Hnh1 & Hinfo1 & Hcount1 & _).
  apply recreate_swapchain_state in H2
    as (Ho2 & Hc2 & Hw2 & Hh2 & Hnw2 & Hnh2 & Hinfo2 & Hcount2 & _).
  assert (Hinfo : swapchain_create_info s2 = swapchain_create_info s1).
  { rewrite Hinfo2. unfold swapchain_create_info. cbn.
    rewrite Hnw1, Hnh1, <- Hw1, <- Hh1. reflexivity. }
  unfold attachment_configuration.
  rewrite Hc2, Ho2, Hcount2, Hcount1, Hinfo, Hsame.
  split; [reflexivity|]. split; congruence.
Qed.

(** C7: two calls of [recreate_swapchain] in a row, with no resize in
    between, leave the same image format, depth format, sample count and
    number of image views, and the same size, provided the driver returns
    as many swapchain images the second time as the first for the same
    creation parameters. *)
Theorem recreate_swapchain_twice (dev1 dev2 : device)
    (s s1 s2 : swap_state (F:=F)) :
  recreate_swapchain dev1 s = Ok s1 ->
  recreate_swapchain dev2 s1 = Ok s2 ->
  length (swapchain_images dev2 (swapchain_create_info s1)) =
  length (swapchain_images dev1 (swapchain_create_info s1)) ->
  attachment_configuration s2 = attachment_configuration s1 /\
  width s2 = width s1 /\ height s2 = height s1.
Proof.
  intros H1 H2 Hsame.
  destruct (recreate_swapchain_repeats dev1 dev2 s s1 s2 H1 H2 Hsame)
    as (Hconfig & Hw & Hh).
  split; [exact Hconfig|]. split; [exact Hw|exact Hh].
Qed.

Lemma store_images_returns_alike (images : list Z) (format : Z) (i : nat)
    (d1 d2 r : list image_slot) :
  store_images images format i d1 = Ok r ->
  exists r', store_images images format i d2 = Ok r'.
Proof.
  revert i d1 d2. induction images as [|img rest IH]; intros i d1 d2;
    cbn [store_images].
  - intros _. eexists. reflexivity.
  - destruct (5 <=? i)%nat; [discriminate|]. intros H.
    eapply IH. exact H.
Qed.

(** Whether [create_swapchain] returns depends on the options, the
    configuration and the size only. *)
Lemma create_swapchain_returns_alike (dev : device) (s t s' : swap_state (F:=F)) :
  opts t = opts s -> cfg t = cfg s ->
  width t = width s -> height t = height s ->
  create_swapchain dev s = Ok s' ->
  exists t', create_swapchain dev t = Ok t'.
Proof.
  intros Ho Hc Hw Hh H.
  unfold create_swapchain, swapchain_create_info in *.
  rewrite Ho, Hc, Hw, Hh.
  bind_inv H as u Hassert. rewrite Hassert. cbn [bind].
  bind_inv H as msaa Hmsaa. bind_inv H as depth Hdepth.
  bind_inv H as data Hdata.
  destruct (negb (sample_count (opts s) =? VK_SAMPLE_COUNT_1_BIT)).
  - rewrite Hmsaa. cbn [bind]. rewrite Hdepth. cbn [bind].
    destruct (store_images_returns_alike _ _ _ _ (image_data (res t)) _ Hdata)
      as (data' & ->).
    eexists. reflexivity.
  - cbn [bind]. rewrite Hdepth. cbn [bind].
    destruct (store_images_returns_alike _ _ _ _ (image_data (res t)) _ Hdata)
      as (data' & ->).
    eexists. reflexivity.
Qed.

(** With a driver that gives the same answers, the second call returns as
    the first did, with the same attachment configuration. *)
Lemma recreate_swapchain_again (dev : device) (s s1 : swap_state (F:=F)) :
  recreate_swapchain dev s = Ok s1 ->
  exists s2, recreate_swapchain dev s1 = Ok s2 /\
             attachment_configuration s2 = attachment_configuration s1.
Proof.
  intros H1.
  pose proof (recreate_swapchain_state _ _ _ H1)
    as (Ho & Hc & Hw & Hh & Hnw & Hnh & _).
  assert (Hreturns : exists s2, recreate_swapchain dev s1 = Ok s2).
  { unfold recreate_swapchain in *.
    eapply create_swapchain_returns_alike; [| | | |exact H1]; cbn;
      congruence. }
  destruct Hreturns as (s2 & H2). exists s2. split; [exact H2|].
  apply (recreate_swapchain_repeats dev dev s s1 s2 H1 H2 eq_refl).
Qed.

(** *** The window callbacks *)

Lemma wsi_key_press_angle (down : bool) (key : wsi_key) (s s' : scene (F:=F)) :
  wsi_key_press down key s = Ok s' -> angle s' = angle s.
Proof.
  unfold wsi_key_press.
  destruct down; cbn [negb]; [|intros [= <-]; reflexivity].
  destruct key; intros H; try discriminate H; injection H as <-; reflexivity.
Qed.

(** The callbacks touch the scene and the size the window asks for, and
    nothing else. *)
Lemma deliver_keeps (ev : wsi_event) (w w' : world (F:=F)) :
  deliver ev w = Ok w' ->
  angle (sc w') = angle (sc w) /\ res (sw w') = res (sw w) /\
  opts (sw w') = opts (sw w) /\ cfg (sw w') = cfg (sw w) /\
  width (sw w') = width (sw w) /\ height (sw w') = height (sw w) /\
  gs w' = gs w /\ tm w' = tm w /\ frame_index w' = frame_index w /\
  first w' = first w /\ presented w' = presented w.
Proof.
  destruct ev as [nw nh|down key|]; cbn [deliver]; intros H.
  - injection H as <-. cbn. repeat split; reflexivity.
  - bind_inv H as s Hs. injection H as <-. cbn.
    apply wsi_key_press_angle in Hs. repeat split; try reflexivity. exact Hs.
  - discriminate H.
Qed.

Lemma update_window_keeps (evs : list wsi_event) (w w' : world (F:=F)) :
  update_window evs w = Ok w' ->
  angle (sc w') = angle (sc w) /\ res (sw w') = res (sw w) /\
  opts (sw w') = opts (sw w) /\ cfg (sw w') = cfg (sw w) /\
  width (sw w') = width (sw w) /\ height (sw w') = height (sw w) /\
  gs w' = gs w /\ tm w' = tm w /\ frame_index w' = frame_index w /\
  first w' = first w /\ presented w' = presented w.
Proof.
  revert w. induction evs as [|ev rest IH]; intros w H; cbn [update_window] in H.
  - injection H as <-. repeat split; reflexivity.
  - bind_inv H as w1 Hw1.
    apply deliver_keeps in Hw1. apply IH in H.
    repeat match goal with H : _ /\ _ |- _ => destruct H end.
    repeat split; congruence.
Qed.

(** *** One turn of the loop, taken apart *)

Lemma wait_slot_inv (w w' : world (F:=F)) :
  wait_slot w = Ok w' ->
  exists slot,
    (frame_index w < MAX_CONCURRENT_FRAMES)%nat /\
    frame_data (res (sw w)) !! frame_index w = Some slot /\
    wait_for_fence (fence slot) = Ok tt /\
    w' = set_slot (frame_index w)
           {| fence := FenceUnsignaled; cmd_buffer := cmd_buffer slot |} w.
Proof.
  unfold wait_slot. intros H.
  bind_inv H as u Hidx.
  destruct (frame_data (res (sw w)) !! frame_index w) as [slot|] eqn:Hslot;
    [|discriminate H].
  bind_inv H as u' Hwait. injection H as <-.
  exists slot. repeat split.
  - unfold assert in Hidx.
    destruct (Nat.ltb_spec (frame_index w) MAX_CONCURRENT_FRAMES);
      [assumption|discriminate Hidx].
  - destruct u'. exact Hwait.
Qed.

Lemma render_frame_inv (t : F) (i : nat) (w w' : world (F:=F)) :
  render_frame t i w = Ok w' ->
  exists cmds,
    record_commands w i = Ok cmds /\
    w' = finish_frame t i
           (set_slot (frame_index w)
              {| fence := FencePending (frame_index w); cmd_buffer := cmds |}
              (with_first (<[i := true]> (first w)) w)).
Proof.
  unfold render_frame. intros H. bind_inv H as cmds Hcmds.
  injection H as <-. exists cmds. split; [exact Hcmds|reflexivity].
Qed.

Lemma loop_body_inv (dev : device) (inp : frame_input) (w w' : world (F:=F)) :
  loop_body dev inp w = Ok w' ->
  exists w1 w2,
    update_window (events inp) (advance_rotation (now inp) w) = Ok w1 /\
    window_closed inp = false /\
    wait_slot w1 = Ok w2 /\
    ((exists s, recreate_swapchain dev (sw w2) = Ok s /\
                w' = with_first (replicate 4 false) (with_sw s w2)) \/
     (acquire_result inp = VK_SUCCESS /\ (image_index inp < 5)%nat /\
      render_frame (now inp) (image_index inp) w2 = Ok w')).
Proof.
  unfold loop_body. intros H.
  bind_inv H as w1 Hw1.
  destruct (window_closed inp); [discriminate H|].
  bind_inv H as w2 Hw2.
  exists w1, w2. repeat split; try assumption.
  destruct ((acquire_result inp =? VK_SUBOPTIMAL_KHR)
            || negb (width (sw w2) =? new_width (sw w2))
            || negb (height (sw w2) =? new_height (sw w2))).
  - bind_inv H as s Hs. injection H as <-. left. exists s. split; trivial.
  - bind_inv H as u Hres. bind_inv H as u' Hidx. right.
    unfold assert in Hres, Hidx.
    destruct (Z.eqb_spec (acquire_result inp) VK_SUCCESS); [|discriminate Hres].
    destruct (Nat.ltb_spec (image_index inp) 5); [|discriminate Hidx].
    repeat split; assumption.
Qed.

(** The scene after a turn is the scene the callbacks left. *)
Lemma loop_body_scene (dev : device) (inp : frame_input) (w w' : world (F:=F)) :
  loop_body dev inp w = Ok w' ->
  exists w1,
    update_window (events inp) (advance_rotation (now inp) w) = Ok w1 /\
    sc w' = sc w1.
Proof.
  intros H. apply loop_body_inv in H as (w1 & w2 & Hw1 & _ & Hw2 & Hrest).
  exists w1. split; [exact Hw1|].
  apply wait_slot_inv in Hw2 as (slot & _ & _ & _ & ->).
  destruct Hrest as [(s & _ & ->)|(_ & _ & Hrender)].
  - reflexivity.
  - apply render_frame_inv in Hrender as (cmds & _ & ->). reflexivity.
Qed.

Lemma advance_rotation_angle (t : F) (w : world (F:=F)) :
  angle (sc (advance_rotation t w)) =
    if animate (sc w) then advance_angle (angle (sc w)) (elapsed t (tm w))
    else angle (sc w).
Proof.
  unfold advance_rotation. cbn. destruct (animate (sc w)); reflexivity.
Qed.

(** C8: the A key pressed twice gives back the scene it started from;
    one press flips [animate] and leaves the angle alone; and a turn of the
    loop leaves the angle at the value it holds while [animate] is off,
    and while it is on moves it from that value by 70 times the seconds
    since the previous turn (none in the first turn), less 3600 when the
    sum is above 3600. *)
Theorem animation_toggle_twice :
  (forall s : scene (F:=F),
     (s1 <- wsi_key_press true WSI_KEY_A s ;; wsi_key_press true WSI_KEY_A s1)
     = Ok s) /\
  (forall s s' : scene (F:=F),
     wsi_key_press true WSI_KEY_A s = Ok s' ->
     animate s' = negb (animate s) /\ angle s' = angle s) /\
  (forall (dev : device) (inp : frame_input) (w w' : world (F:=F)),
     loop_body dev inp w = Ok w' ->
     let dt :=
       fsub (now inp)
         (if flt (tRot0 (tm w)) (of_int 0) then now inp else tRot0 (tm w)) in
     let moved := to_float (fadd (angle (sc w)) (fmul (of_int 70) dt)) in
     angle (sc w') =
       if animate (sc w)
       then (if flt (of_int 3600) moved
             then to_float (fsub moved (of_int 3600))
             else moved)
       else angle (sc w)).
Proof.
  split; [|split].
  - intros [r0 r1 a ang]. cbn. rewrite negb_involutive. reflexivity.
  - intros s s' H. cbn in H. injection H as <-. cbn. split; reflexivity.
  - intros dev inp w w' H.
    apply loop_body_scene in H as (w1 & Hw1 & ->).
    apply update_window_keeps in Hw1 as (Hangle & _).
    rewrite Hangle, advance_rotation_angle. reflexivity.
Qed.

Lemma advance_rotation_keeps (t : F) (w : world (F:=F)) :
  sw (advance_rotation t w) = sw w /\
  frame_index (advance_rotation t w) = frame_index w /\
  first (advance_rotation t w) = first w.
Proof.
  unfold advance_rotation. cbn.
  destruct (animate (sc w)); repeat split; reflexivity.
Qed.

(** *** The image barriers of a recorded frame *)

(** The barrier before rendering takes its old layout from
    [first[image_index]] and names [image_data[frame_index].image]; the
    frame renders into the view of [image_data[image_index]]. *)
Lemma record_commands_barriers (w : world (F:=F)) (i : nat) (cmds : list cmd) :
  record_commands w i = Ok cmds ->
  exists (seen : bool) (slot_image acquired : image_slot),
    first w !! i = Some seen /\
    image_data (res (sw w)) !! frame_index w = Some slot_image /\
    image_data (res (sw w)) !! i = Some acquired /\
    image_barriers cmds =
      [ (if seen then VK_IMAGE_LAYOUT_PRESENT_SRC_KHR
         else VK_IMAGE_LAYOUT_UNDEFINED,
         VK_IMAGE_LAYOUT_COLOR_ATTACHMENT_OPTIMAL, image slot_image);
        (VK_IMAGE_LAYOUT_COLOR_ATTACHMENT_OPTIMAL,
         VK_IMAGE_LAYOUT_PRESENT_SRC_KHR, image slot_image) ] /\
    render_targets cmds =
      [ if sample_count (opts (sw w)) =? VK_SAMPLE_COUNT_1_BIT
        then (view acquired, None)
        else (color_msaa_view (res (sw w)), Some (view acquired)) ].
Proof.
  unfold record_commands. intros H.
  destruct (first w !! i) as [seen|]; [|discriminate H].
  destruct (image_data (res (sw w)) !! frame_index w) as [slot_image|];
    [|discriminate H].
  destruct (image_data (res (sw w)) !! i) as [acquired|]; [|discriminate H].
  injection H as <-. exists seen, slot_image, acquired.
  repeat split; cbn.
  - destruct seen; reflexivity.
  - destruct (sample_count (opts (sw w)) =? VK_SAMPLE_COUNT_1_BIT); reflexivity.
Qed.

(** A turn that recreates the swapchain clears every first-use flag; a
    turn that renders sets the flag of the acquired image. *)
Lemma loop_body_first (dev : device) (inp : frame_input) (w w' : world (F:=F)) :
  loop_body dev inp w = Ok w' ->
  first w' = replicate 4 false \/
  first w' = <[image_index inp := true]> (first w).
Proof.
  intros H. apply loop_body_inv in H as (w1 & w2 & Hw1 & _ & Hw2 & Hrest).
  apply update_window_keeps in Hw1
    as (_ & _ & _ & _ & _ & _ & _ & _ & _ & Hfirst & _).
  apply wait_slot_inv in Hw2 as (slot & _ & _ & _ & ->).
  destruct Hrest as [(s & _ & ->)|(_ & _ & Hrender)].
  - left. reflexivity.
  - right. apply render_frame_inv in Hrender as (cmds & _ & ->).
    cbn. rewrite Hfirst.
    destruct (advance_rotation_keeps (now inp) w) as (_ & _ & ->).
    reflexivity.
Qed.

(** *** Fences *)

Lemma never_hangs_Ok {A : Type} (a : A) : never_hangs (Ok a).
Proof. intros why H. discriminate H. Qed.

Lemma never_hangs_Stop {A : Type} (why : stop) :
  why <> Hang -> never_hangs (@Stop A why).
Proof. intros Hne why' [= <-]. exact Hne. Qed.

Lemma never_hangs_bind {A B : Type} (r : result A) (k : A -> result B) :
  never_hangs r -> (forall a, r = Ok a -> never_hangs (k a)) ->
  never_hangs (bind r k).
Proof.
  intros Hr Hk. destruct r as [a|why]; cbn [bind].
  - apply Hk. reflexivity.
  - intros why' [= <-]. apply (Hr why). reflexivity.
Qed.

Ltac quiet :=
  repeat first
    [ assumption
    | apply never_hangs_Ok
    | apply never_hangs_Stop; discriminate
    | apply never_hangs_bind; [|intros ? ?]
    | match goal with
      | |- never_hangs (error _) => apply never_hangs_Stop; discriminate
      | |- never_hangs (assert ?b) => destruct b; cbn [assert]
      | |- never_hangs (if ?b then _ else _) => destruct b
      | |- never_hangs (match ?x with _ => _ end) => destruct x
      end ].

Lemma find_memory_type_never_hangs (mp : VkPhysicalDeviceMemoryProperties)
    (memoryTypeBits flags : Z) :
  never_hangs (find_memory_type mp memoryTypeBits flags).
Proof.
  unfold find_memory_type. generalize 0. generalize 32%nat.
  induction n as [|n IH]; intros i; cbn [find_memory_type_from]; quiet.
  apply IH.
Qed.

Lemma create_attachment_never_hangs (dev : device) (info : image_info)
    (aspect : Z) (m1 m2 m3 : string) :
  never_hangs (create_attachment dev info aspect m1 m2 m3).
Proof.
  unfold create_attachment, image_memory_type.
  pose proof (find_memory_type_never_hangs (mem_props dev)) as Hfind.
  quiet; apply Hfind.
Qed.

Lemma store_images_never_hangs (images : list Z) (format : Z) (i : nat)
    (data : list image_slot) :
  never_hangs (store_images images format i data).
Proof.
  revert i data. induction images as [|img rest IH]; intros i data;
    cbn [store_images]; quiet. apply IH.
Qed.

Lemma recreate_swapchain_never_hangs (dev : device) (s : swap_state (F:=F)) :
  never_hangs (recreate_swapchain dev s).
Proof.
  unfold recreate_swapchain, create_swapchain.
  pose proof (create_attachment_never_hangs dev) as Hatt.
  pose proof store_images_never_hangs as Hstore.
  quiet; try apply Hatt; apply Hstore.
Qed.

Lemma update_window_never_hangs (evs : list wsi_event) (w : world (F:=F)) :
  never_hangs (update_window evs w).
Proof.
  revert w. induction evs as [|ev rest IH]; intros w; cbn [update_window].
  - quiet.
  - apply never_hangs_bind; [|intros w1 _; apply IH].
    destruct ev as [nw nh|down key|]; cbn [deliver]; quiet.
    unfold wsi_key_press. destruct down, key; cbn [negb]; quiet.
Qed.

Lemma render_frame_never_hangs (t : F) (i : nat) (w : world (F:=F)) :
  never_hangs (render_frame t i w).
Proof. unfold render_frame, record_commands. quiet. Qed.

(** With ready fences the wait of WAIT_SLOT returns. *)
Lemma wait_slot_never_hangs (w : world (F:=F)) :
  fences_ready w -> never_hangs (wait_slot w).
Proof.
  intros (_ & _ & Hready). unfold wait_slot.
  apply never_hangs_bind; [quiet|intros _ _].
  destruct (frame_data (res (sw w)) !! frame_index w) as [slot|] eqn:Hslot;
    [|quiet].
  destruct (Hready _ _ Hslot) as [->| ->]; cbn [wait_for_fence bind]; quiet.
Qed.

Lemma loop_body_keeps_fences_ready (dev : device) (inp : frame_input)
    (w w' : world (F:=F)) :
  fences_ready w -> loop_body dev inp w = Ok w' -> fences_ready w'.
Proof.
  intros (Hlen & Hidx & Hready) H.
  apply loop_body_inv in H as (w1 & w2 & Hw1 & _ & Hw2 & Hrest).
  apply update_window_keeps in Hw1
    as (_ & Hres & _ & _ & _ & _ & _ & _ & Hfi & _).
  destruct (advance_rotation_keeps (now inp) w) as (Hsw0 & Hfi0 & _).
  rewrite Hsw0 in Hres. rewrite Hfi0 in Hfi.
  apply wait_slot_inv in Hw2 as (slot & _ & Hslot & _ & ->).
  rewrite Hres, Hfi in Hslot.
  destruct Hrest as [(s & Hs & ->)|(_ & _ & Hrender)].
  - apply recreate_swapchain_state in Hs
      as (_ & _ & _ & _ & _ & _ & _ & _ & Hframes).
    unfold fences_ready. cbn. rewrite Hframes, Hfi.
    split; [apply length_replicate|]. split; [exact Hidx|].
    intros i slot' Hi. apply lookup_replicate in Hi as (-> & _).
    left. reflexivity.
  - apply render_frame_inv in Hrender as (cmds & _ & ->).
    unfold fences_ready. cbn. rewrite Hres, Hfi.
    split; [rewrite !length_insert; exact Hlen|]. split.
    + unfold MAX_CONCURRENT_FRAMES in *. clear - Hidx.
      destruct (frame_index w) as [|[|n]]; cbn; lia.
    + intros i slot' Hi.
      destruct (Nat.eq_dec (frame_index w) i) as [<-|Hne].
      * rewrite list_lookup_insert_eq in Hi
          by (rewrite length_insert; lia).
        injection Hi as <-. right. reflexivity.
      * rewrite !list_lookup_insert_ne in Hi by exact Hne.
        exact (Hready _ _ Hi).
Qed.

Lemma loop_body_never_hangs (dev : device) (inp : frame_input)
    (w : world (F:=F)) :
  fences_ready w -> never_hangs (loop_body dev inp w).
Proof.
  intros Hready. unfold loop_body.
  apply never_hangs_bind; [apply update_window_never_hangs|intros w1 Hw1].
  destruct (window_closed inp); [quiet|].
  assert (Hready1 : fences_ready w1).
  { apply update_window_keeps in Hw1
      as (_ & Hres & _ & _ & _ & _ & _ & _ & Hfi & _).
    destruct (advance_rotation_keeps (now inp) w) as (Hsw0 & Hfi0 & _).
    unfold fences_ready in *. rewrite Hres, Hfi, Hsw0, Hfi0. exact Hready. }
  apply never_hangs_bind; [apply wait_slot_never_hangs; exact Hready1|].
  intros w2 _.
  pose proof (recreate_swapchain_never_hangs dev (sw w2)) as Hre.
  pose proof (render_frame_never_hangs (now inp) (image_index inp) w2) as Hrf.
  quiet.
Qed.

Lemma main_fences_ready (c : libc) (dev : device) (argv : list string)
    (w0 : world (F:=F)) :
  snd (main c dev argv) = Ok w0 ->
  fences_ready w0 /\
  forall (i : nat) (slot : frame_slot),
    frame_data (res (sw w0)) !! i = Some slot ->
    fence slot = FenceSignaledAtCreation.
Proof.
  unfold main. intros H.
  destruct (parse_args c argv default_options) as [o| |why];
    try discriminate H.
  destruct (init_vk_failure dev); [discriminate H|].
  destruct (negb (check_sample_count_support dev (sample_count o)));
    [discriminate H|].
  destruct (negb (create_surface_ok dev)); [discriminate H|].
  destruct (configure_swapchain dev o) as [config|]; [|discriminate H].
  destruct (create_swapchain dev _) as [s|] eqn:Hs; [|discriminate H].
  destruct (init_gears dev (use_shader_object o)) as [g|]; [|discriminate H].
  cbn [snd] in H. injection H as <-.
  apply create_swapchain_state in Hs
    as (_ & _ & _ & _ & _ & _ & _ & _ & Hframes).
  unfold fences_ready. cbn. rewrite Hframes.
  split.
  - split; [apply length_replicate|]. split; [unfold MAX_CONCURRENT_FRAMES; lia|].
    intros i slot Hi. apply lookup_replicate in Hi as (-> & _).
    left. reflexivity.
  - intros i slot Hi. apply lookup_replicate in Hi as (-> & _). reflexivity.
Qed.

(** C9: the loop is entered with every fence of the ring signaled from its
    creation; whatever the window, the clock and the driver do, before
    every turn the fence of each slot is still signaled from its creation
    or attached to the last submission of that slot, and no turn stops in
    the wait on a fence. *)
Theorem frame_fences_ready (c : libc) (dev : device) (argv : list string)
    (w0 : world (F:=F)) :
  snd (main c dev argv) = Ok w0 ->
  (forall (i : nat) (slot : frame_slot),
     frame_data (res (sw w0)) !! i = Some slot ->
     fence slot = FenceSignaledAtCreation) /\
  forall inputs : list frame_input,
    match run_frames dev inputs w0 with
    | Ok w => fences_ready w
    | Stop why => why <> Hang
    end.
Proof.
  intros Hmain. apply main_fences_ready in Hmain as (Hready & Hcreated).
  split; [exact Hcreated|].
  clear Hcreated. intros inputs. revert w0 Hready.
  induction inputs as [|inp rest IH]; intros w0 Hready; cbn [run_frames].
  - exact Hready.
  - destruct (loop_body dev inp w0) as [w1|why] eqn:Hturn; cbn [bind].
    + apply IH. eapply loop_body_keeps_fences_ready; eassumption.
    + eapply loop_body_never_hangs; eassumption.
Qed.

End RendererFacts.

(** ** The model run on the example driver *)

(** Proves the first conjunct of the goal by running the model and keeps
    it as a hypothesis. *)
Tactic Notation "run_first" "as" ident(H) :=
  lazymatch goal with
  | |- ?A /\ _ => assert (H : A) by (vm_compute; reflexivity); split; [exact H|]
  end.

(** C1, at the failing input: in the first turn the ring slot is 0 and the
    driver hands out image 1 (handle 12).  The frame renders into the view
    of image 12 and presents image 1, but both image barriers of the
    recorded frame name image 11, the image at the slot index; image 12 is
    never transitioned. *)
Theorem barrier_names_slot_image :
  frame_index example_world = 0%nat /\
  image <$> image_data (res (sw example_world)) = [11; 12; 13; 0; 0] /\
  exists (w1 : world (F:=Z)) (cmds : list cmd),
    loop_body example_device (turn 10 [] 1) example_world = Ok w1 /\
    frame_data (res (sw w1)) !! 0%nat =
      Some {| fence := FencePending 0; cmd_buffer := cmds |} /\
    image_barriers cmds =
      [ (VK_IMAGE_LAYOUT_UNDEFINED,
         VK_IMAGE_LAYOUT_COLOR_ATTACHMENT_OPTIMAL, 11);
        (VK_IMAGE_LAYOUT_COLOR_ATTACHMENT_OPTIMAL,
         VK_IMAGE_LAYOUT_PRESENT_SRC_KHR, 11) ] /\
    view_image <$> (fst <$> render_targets cmds) = [12] /\
    presented w1 = [1%nat] /\
    first w1 = [false; true; false; false].
Proof.
  split; [reflexivity|]. split; [reflexivity|].
  eexists. eexists.
  split; [vm_compute; reflexivity|].
  split; [reflexivity|].
  repeat split; reflexivity.
Qed.

(** C10 as stated fails on a surface whose minimum and maximum image
    count are both 1: [configure_swapchain] returns with
    [min_image_count] 1, below the larger of 2 and the surface minimum. *)
Lemma min_image_count_below_two :
  exists c : swap_config,
    configure_swapchain one_image_surface default_options = Ok c /\
    caps_minImageCount one_image_surface = 1 /\
    caps_maxImageCount one_image_surface = 1 /\
    min_image_count c = 1 /\
    ~ (Z.max 2 (caps_minImageCount one_image_surface) <= min_image_count c).
Proof.
  eexists. split; [reflexivity|]. repeat split. cbn. lia.
Qed.

(** The image-count bounds on the one-image surface, and the fatal stop on
    the surface that needs six images. *)
Lemma configure_swapchain_min_image_count_witness :
  (exists c : swap_config,
     configure_swapchain one_image_surface default_options = Ok c /\
     min_image_count c = 1 /\ min_image_count c <= 5) /\
  (5 < caps_minImageCount six_image_surface /\
   configure_swapchain six_image_surface default_options =
     error "surface_caps.minImageCount is too large (is: %d, max: %d)").
Proof.
  split.
  - eexists. split; [reflexivity|].
    pose proof (proj1 (configure_swapchain_min_image_count (F:=Z)
                         one_image_surface default_options) _ eq_refl)
      as (Hvalue & _ & Hfive).
    split; [exact Hvalue|exact Hfive].
  - assert (Hbig : 5 < caps_minImageCount six_image_surface) by (cbn; lia).
    split; [exact Hbig|].
    apply (proj2 (configure_swapchain_min_image_count (F:=Z)
                    six_image_surface default_options) Hbig).
    + vm_compute. discriminate.
    + reflexivity.
Defined.

(** Mailbox is wanted and [example_device] lists it. *)
Lemma configure_swapchain_present_mode_witness :
  exists c : swap_config,
    configure_swapchain example_device
      (set_desidered_present_mode VK_PRESENT_MODE_MAILBOX_KHR default_options)
      = Ok c /\
    present_mode c = VK_PRESENT_MODE_MAILBOX_KHR.
Proof.
  eexists. split; [reflexivity|].
  apply (proj1 (configure_swapchain_present_mode example_device
                  (set_desidered_present_mode VK_PRESENT_MODE_MAILBOX_KHR
                     default_options) _ eq_refl)).
  cbn. right. left. reflexivity.
Defined.

(** [example_device] supports D32_SFLOAT, which is chosen. *)
Lemma configure_swapchain_depth_format_witness :
  exists c : swap_config,
    configure_swapchain example_device default_options = Ok c /\
    depth_format c = VK_FORMAT_D32_SFLOAT /\
    depth_capable example_device (depth_format c).
Proof.
  eexists. split; [reflexivity|].
  assert (Hd32 : depth_capable example_device VK_FORMAT_D32_SFLOAT)
    by (vm_compute; discriminate).
  destruct (configure_swapchain_depth_format example_device default_options
              _ eq_refl (or_introl Hd32)) as (_ & Hcapable & Hprefers).
  split; [exact (Hprefers Hd32)|exact Hcapable].
Defined.

(** [exact_mapping_device] maps the 60 bytes asked for: [init_gears] is
    undefined with shader objects and with pipelines.  [example_device]
    maps a page: [init_gears] returns and record 2 selects entry 3 and
    draws the 470 vertices of the third gear from vertex 1400. *)
Lemma init_gears_indirect_records_past_mapping_witness :
  init_gears exact_mapping_device true = Stop Undefined /\
  init_gears exact_mapping_device false = Stop Undefined /\
  exists g : gear_state,
    init_gears example_device true = Ok g /\
    exists (r : indirect_data) (index : Z),
      indirect_record (indirect_map g) 2 = Some r /\
      [0; 2; 3] !! 2%nat = Some index /\
      ies_0 r = index /\
      draw r = {| vertexCount := 470; instanceCount := 1;
                  firstVertex := 1400; firstInstance := 0 |}.
Proof.
  assert (Hbuffers : forall size usage : Z, exists buffer memory : Z,
            create_buffer exact_mapping_device size usage = Ok buffer /\
            allocate_buffer_mem exact_mapping_device buffer = Ok memory)
    by (intros size usage; exists 2, 1; split; reflexivity).
  assert (Hexact : forall memory : Z,
            map_memory_answer exact_mapping_device memory indirect_size =
            Some indirect_size)
    by (intros memory; reflexivity).
  split.
  { apply (proj1 (proj2 (init_gears_indirect_records_past_mapping
                           exact_mapping_device true)) Hbuffers Hexact). }
  split.
  { apply (proj1 (proj2 (init_gears_indirect_records_past_mapping
                           exact_mapping_device false)) Hbuffers Hexact). }
  eexists.
  run_first as H.
  pose proof (proj2 (proj2 (init_gears_indirect_records_past_mapping
                              example_device true)) _ H)
    as (_ & _ & _ & Hrecord).
  apply (Hrecord 2%nat {| first_vertex := 1400; vertex_count := 470 |}).
  vm_compute. reflexivity.
Defined.


(** Sixteen samples on [example_device]: [main] stops in the sample-count
    check and has not called [create_swapchain]. *)
Lemma main_rejects_unsupported_sample_count_witness :
  snd (main (F:=Z) example_libc example_device sixteen_samples) =
    error "Sample count not supported" /\
  ~ In CreateSwapchain (fst (main (F:=Z) example_libc example_device sixteen_samples)).
Proof.
  assert (Hparse : parse_args example_libc sixteen_samples default_options =
                   Parsed (set_sample_count VK_SAMPLE_COUNT_16_BIT default_options))
    by (vm_compute; reflexivity).
  destruct (main_rejects_unsupported_sample_count (F:=Z) example_libc
              example_device sixteen_samples _ Hparse (or_introl eq_refl))
    as (_ & Hstop & _ & Hnone).
  split; [exact (Hstop eq_refl)|exact Hnone].
Defined.

(** After a resize to 800 by 600, two calls in a row leave the same
    attachment configuration at that size. *)
Lemma recreate_swapchain_twice_witness :
  exists s1 s2 : swap_state (F:=Z),
    recreate_swapchain example_device
      (with_new_size 800 600 (sw example_world)) = Ok s1 /\
    recreate_swapchain example_device s1 = Ok s2 /\
    attachment_configuration s2 = attachment_configuration s1 /\
    width s2 = 800 /\ height s2 = 600.
Proof.
  eexists. eexists.
  run_first as H1.
  run_first as H2.
  destruct (recreate_swapchain_twice example_device example_device
              _ _ _ H1 H2 eq_refl) as (Hsame & Hw & Hh).
  split; [exact Hsame|]. split; [exact Hw|exact Hh].
Defined.

(** Five turns one second apart, with the arithmetic of [whole_numbers]:
    the first moves the angle by nothing, the second moves it to 70 and
    brings the A key, the third brings nothing, the fourth brings the A
    key again, the fifth brings nothing.  The angle stands at 70 through
    the third and fourth turn and the fifth moves it on from there to 140,
    where a restart from zero would have given 70. *)
Lemma animation_toggle_twice_witness :
  exists w1 w2 w3 w4 w5 : world (F:=Z),
    loop_body example_device (turn 10 [] 1) example_world = Ok w1 /\
    loop_body example_device (turn 11 [EvKey true WSI_KEY_A] 0) w1 = Ok w2 /\
    loop_body example_device (turn 12 [] 1) w2 = Ok w3 /\
    loop_body example_device (turn 13 [EvKey true WSI_KEY_A] 2) w3 = Ok w4 /\
    loop_body example_device (turn 14 [] 0) w4 = Ok w5 /\
    angle (sc w1) = 0 /\
    angle (sc w2) = 70 /\ animate (sc w2) = false /\
    angle (sc w3) = 70 /\
    angle (sc w4) = 70 /\ animate (sc w4) = true /\
    angle (sc w5) = 140.
Proof.
  eexists. eexists. eexists. eexists. eexists.
  run_first as H1.
  run_first as H2.
  run_first as H3.
  run_first as H4.
  run_first as H5.
  pose proof (proj2 (proj2 (animation_toggle_twice (F:=Z)))) as Hturn.
  pose proof (Hturn _ _ _ _ H1) as A1. cbv zeta in A1.
  pose proof (Hturn _ _ _ _ H2) as A2. cbv zeta in A2.
  pose proof (Hturn _ _ _ _ H3) as A3. cbv zeta in A3.
  pose proof (Hturn _ _ _ _ H4) as A4. cbv zeta in A4.
  pose proof (Hturn _ _ _ _ H5) as A5. cbv zeta in A5.
  split; [exact A1|].
  split; [exact A2|].
  split; [reflexivity|].
  split; [exact A3|].
  split; [exact A4|].
  split; [reflexivity|].
  exact A5.
Defined.

(** Four turns on [example_device], the second of which resizes the window
    and so recreates the swapchain. *)
Lemma frame_fences_ready_witness :
  match run_frames example_device
          [turn 10 [] 0; turn 11 [EvResize 800 600] 1; turn 12 [] 1; turn 13 [] 2]
          example_world with
  | Ok w => fences_ready w
  | Stop why => why <> Hang
  end.
Proof.
  assert (Hmain : snd (main (F:=Z) example_libc example_device []) =
                  Ok example_world) by (vm_compute; reflexivity).
  pose proof (frame_fences_ready (F:=Z) example_libc example_device []
                example_world Hmain) as [_ Hall].
  apply Hall.
Defined.

(** ** More about the memory-type search *)

Lemma find_memory_type_from_sound (mp : VkPhysicalDeviceMemoryProperties)
    (memoryTypeBits flags : Z) :
  forall (left : nat) (i r : Z),
    0 <= i -> i + Z.of_nat left = 32 ->
    find_memory_type_from mp memoryTypeBits flags left i = Ok r ->
    r = -1 \/
    (i <= r <= memoryTypeCount mp /\ r < 32 /\
     Z.testbit memoryTypeBits r = true /\
     Z.land (propertyFlags mp r) flags = flags).
Proof.
  induction left as [|left IH]; intros i r Hi Hleft H;
    cbn [find_memory_type_from] in H.
  - discriminate H.
  - rewrite shiftl_one in H by exact Hi.
    destruct ((2 ^ i <=? memoryTypeBits) && (i <=? memoryTypeCount mp))
      eqn:Hcond; [|injection H as <-; left; reflexivity].
    apply andb_true_iff in Hcond as [_ Hcount]. apply Z.leb_le in Hcount.
    rewrite land_pow2_testbit, negb_involutive in H by exact Hi.
    destruct (Z.testbit memoryTypeBits i
              && (Z.land (propertyFlags mp i) flags =? flags)) eqn:Hhere.
    + injection H as <-.
      apply andb_true_iff in Hhere as [Hbit Hflags]. apply Z.eqb_eq in Hflags.
      right. repeat split; try assumption; lia.
    + assert (Hnext : r = -1 \/
                      (i + 1 <= r <= memoryTypeCount mp /\ r < 32 /\
                       Z.testbit memoryTypeBits r = true /\
                       Z.land (propertyFlags mp r) flags = flags))
        by (apply IH; [lia|lia|exact H]).
      destruct Hnext as [Hnone|(Hrange & Hrest)].
      * left. exact Hnone.
      * right. split; [lia|exact Hrest].
Qed.

Lemma find_memory_type_result (mp : VkPhysicalDeviceMemoryProperties)
    (memoryTypeBits flags r : Z) :
  find_memory_type mp memoryTypeBits flags = Ok r ->
  r = -1 \/
  (0 <= r <= memoryTypeCount mp /\ r < 32 /\
   Z.testbit memoryTypeBits r = true /\
   Z.land (propertyFlags mp r) flags = flags).
Proof.
  intros H. apply (find_memory_type_from_sound mp memoryTypeBits flags 32 0 r);
    [lia|reflexivity|exact H].
Qed.

(** X1: whatever [find_memory_type] returns is -1 or an index whose bit is
    set in the requirement mask and whose entry has every wanted flag; the
    index is below 32 and can be as large as [memoryTypeCount] itself. *)
Theorem find_memory_type_sound (mp : VkPhysicalDeviceMemoryProperties)
    (memoryTypeBits flags r : Z) :
  find_memory_type mp memoryTypeBits flags = Ok r ->
  r = -1 \/
  (0 <= r <= memoryTypeCount mp /\ r < 32 /\
   Z.testbit memoryTypeBits r = true /\
   Z.land (propertyFlags mp r) flags = flags).
Proof. apply find_memory_type_result. Qed.

(** X2: when a reported memory type is suitable, [find_memory_type] returns
    the suitable type of lowest index. *)
Theorem find_memory_type_lowest (mp : VkPhysicalDeviceMemoryProperties)
    (memoryTypeBits flags j : Z) :
  0 <= memoryTypeBits ->
  memoryTypeCount mp <= 32 ->
  suitable mp memoryTypeBits flags j ->
  exists i, find_memory_type mp memoryTypeBits flags = Ok i /\
            suitable mp memoryTypeBits flags i /\
            forall k, suitable mp memoryTypeBits flags k -> i <= k.
Proof.
  intros Hbits Hcount Hj.
  destruct (find_memory_type_finds mp memoryTypeBits flags j Hbits Hcount Hj)
    as (i & Hi & Hsuit & _).
  exists i. split; [exact Hi|]. split; [exact Hsuit|].
  intros k Hk.
  destruct (find_memory_type_finds mp memoryTypeBits flags k Hbits Hcount Hk)
    as (i' & Hi' & _ & Hle).
  rewrite Hi in Hi'. injection Hi' as <-. exact Hle.
Qed.

(** X3: when the requirement mask names reported memory types only and
    fewer than 32 types are reported, [find_memory_type] returns -1 exactly
    when no reported type is suitable. *)
Theorem find_memory_type_fails_iff (mp : VkPhysicalDeviceMemoryProperties)
    (memoryTypeBits flags : Z) :
  0 <= memoryTypeBits < 2 ^ memoryTypeCount mp ->
  0 <= memoryTypeCount mp < 32 ->
  find_memory_type mp memoryTypeBits flags = Ok (-1) <->
  forall i, ~ suitable mp memoryTypeBits flags i.
Proof.
  intros Hbits Hcount. split.
  - intros Hfail i Hi.
    destruct (find_memory_type_finds mp memoryTypeBits flags i)
      as (r & Hr & (Hrange & _) & _); try lia; try exact Hi.
    rewrite Hfail in Hr. injection Hr as <-. lia.
  - intros Hnone. apply find_memory_type_none; assumption.
Qed.

Lemma image_memory_type_flags (mp : VkPhysicalDeviceMemoryProperties)
    (memoryTypeBits m : Z) :
  image_memory_type mp memoryTypeBits = Ok m ->
  0 <= m <= memoryTypeCount mp /\
  Z.testbit memoryTypeBits m = true /\
  (Z.land (propertyFlags mp m) VK_MEMORY_PROPERTY_LAZILY_ALLOCATED_BIT
     = VK_MEMORY_PROPERTY_LAZILY_ALLOCATED_BIT \/
   Z.land (propertyFlags mp m) VK_MEMORY_PROPERTY_DEVICE_LOCAL_BIT
     = VK_MEMORY_PROPERTY_DEVICE_LOCAL_BIT).
Proof.
  intros H. unfold image_memory_type in H.
  bind_inv H as lazily Hlazy.
  destruct (Z.ltb_spec lazily 0) as [Hneg|Hpos].
  - bind_inv H as local Hlocal.
    destruct (Z.ltb_spec local 0) as [Hneg'|Hpos']; [discriminate H|].
    injection H as <-.
    destruct (find_memory_type_result _ _ _ _ Hlocal)
      as [->|(Hrange & _ & Hbit & Hflags)]; [lia|].
    split; [exact Hrange|]. split; [exact Hbit|]. right. exact Hflags.
  - injection H as <-.
    destruct (find_memory_type_result _ _ _ _ Hlazy)
      as [->|(Hrange & _ & Hbit & Hflags)]; [lia|].
    split; [exact Hrange|]. split; [exact Hbit|]. left. exact Hflags.
Qed.

(** X4: the memory type [create_swapchain] takes for an attachment has its
    bit set in the image's requirement mask and is lazily allocated or
    device local; it is lazily allocated whenever a reported type that the
    image accepts is. *)
Theorem image_memory_type_sound (mp : VkPhysicalDeviceMemoryProperties)
    (memoryTypeBits : Z) :
  (forall m, image_memory_type mp memoryTypeBits = Ok m ->
     0 <= m <= memoryTypeCount mp /\
     Z.testbit memoryTypeBits m = true /\
     (Z.land (propertyFlags mp m) VK_MEMORY_PROPERTY_LAZILY_ALLOCATED_BIT
        = VK_MEMORY_PROPERTY_LAZILY_ALLOCATED_BIT \/
      Z.land (propertyFlags mp m) VK_MEMORY_PROPERTY_DEVICE_LOCAL_BIT
        = VK_MEMORY_PROPERTY_DEVICE_LOCAL_BIT)) /\
  (forall j,
     0 <= memoryTypeBits -> memoryTypeCount mp <= 32 ->
     suitable mp memoryTypeBits VK_MEMORY_PROPERTY_LAZILY_ALLOCATED_BIT j ->
     exists m, image_memory_type mp memoryTypeBits = Ok m /\
               suitable mp memoryTypeBits
                 VK_MEMORY_PROPERTY_LAZILY_ALLOCATED_BIT m).
Proof.
  split.
  - intros m H. apply image_memory_type_flags. exact H.
  - intros j Hbits Hcount Hj.
    destruct (find_memory_type_finds _ _ _ _ Hbits Hcount Hj)
      as (m & Hm & Hsuit & _).
    exists m. split; [|exact Hsuit].
    unfold image_memory_type. rewrite Hm. cbn [bind].
    destruct Hsuit as ((Hlo & _) & _).
    destruct (Z.ltb_spec m 0); [lia|reflexivity].
Qed.

Lemma land_both_flags (x : Z) :
  Z.land x (Z.lor VK_MEMORY_PROPERTY_HOST_VISIBLE_BIT
              VK_MEMORY_PROPERTY_HOST_COHERENT_BIT)
    = Z.lor VK_MEMORY_PROPERTY_HOST_VISIBLE_BIT
        VK_MEMORY_PROPERTY_HOST_COHERENT_BIT ->
  Z.testbit x 1 = true /\ Z.testbit x 2 = true.
Proof.
  intros H. split.
  - assert (Hb : Z.testbit (Z.land x 6) 1 = Z.testbit 6 1)
      by (f_equal; exact H).
    rewrite Z.land_spec in Hb. cbn in Hb.
    rewrite andb_true_r in Hb. exact Hb.
  - assert (Hb : Z.testbit (Z.land x 6) 2 = Z.testbit 6 2)
      by (f_equal; exact H).
    rewrite Z.land_spec in Hb. cbn in Hb.
    rewrite andb_true_r in Hb. exact Hb.
Qed.

(** X5: [allocate_buffer_mem] returns a memory type that the buffer
    accepts and that is host visible and host coherent, and it stops the
    program, when the search returns -1, with its own diagnostic. *)
Theorem allocate_buffer_mem_sound (dev : device) (buffer : Z) :
  (forall m, allocate_buffer_mem dev buffer = Ok m ->
     0 <= m <= memoryTypeCount (mem_props dev) /\
     Z.testbit buffer m = true /\
     Z.testbit (propertyFlags (mem_props dev) m) 1 = true /\
     Z.testbit (propertyFlags (mem_props dev) m) 2 = true) /\
  (find_memory_type (mem_props dev) buffer
     (Z.lor VK_MEMORY_PROPERTY_HOST_VISIBLE_BIT
        VK_MEMORY_PROPERTY_HOST_COHERENT_BIT) = Ok (-1) ->
   allocate_buffer_mem dev buffer = error "failed to find coherent memory type").
Proof.
  unfold allocate_buffer_mem. split.
  - intros m H. bind_inv H as r Hr.
    destruct (Z.ltb_spec r 0) as [Hneg|Hpos]; [discriminate H|].
    injection H as <-.
    destruct (find_memory_type_result _ _ _ _ Hr)
      as [->|(Hrange & _ & Hbit & Hflags)]; [lia|].
    apply land_both_flags in Hflags as (Hvisible & Hcoherent).
    repeat split; try assumption; lia.
  - intros ->. reflexivity.
Qed.

(** ** More about [configure_swapchain] and the sample count *)

Lemma choose_surface_format_found (formats : list (Z * Z)) (current : Z * Z) :
  In (VK_FORMAT_B8G8R8A8_SRGB, VK_COLOR_SPACE_SRGB_NONLINEAR_KHR) formats ->
  choose_surface_format formats current =
    (VK_FORMAT_B8G8R8A8_SRGB, VK_COLOR_SPACE_SRGB_NONLINEAR_KHR).
Proof.
  induction formats as [|[format colorSpace] rest IH]; intros Hin.
  - destruct Hin.
  - cbn [choose_surface_format].
    destruct Hin as [Heq|Hin].
    + injection Heq as -> ->. rewrite !Z.eqb_refl. reflexivity.
    + destruct ((format =? VK_FORMAT_B8G8R8A8_SRGB)
                && (colorSpace =? VK_COLOR_SPACE_SRGB_NONLINEAR_KHR)) eqn:Hhere.
      * apply andb_true_iff in Hhere as [Hf Hc].
        apply Z.eqb_eq in Hf, Hc. subst. reflexivity.
      * exact (IH Hin).
Qed.

Lemma choose_surface_format_missing (formats : list (Z * Z)) (current : Z * Z) :
  ~ In (VK_FORMAT_B8G8R8A8_SRGB, VK_COLOR_SPACE_SRGB_NONLINEAR_KHR) formats ->
  choose_surface_format formats current = current.
Proof.
  induction formats as [|[format colorSpace] rest IH]; intros Hnot.
  - reflexivity.
  - cbn [choose_surface_format].
    destruct (Z.eqb_spec format VK_FORMAT_B8G8R8A8_SRGB) as [->|Hf];
      destruct (Z.eqb_spec colorSpace VK_COLOR_SPACE_SRGB_NONLINEAR_KHR)
        as [->|Hc]; cbn [andb];
      try (apply IH; intros Hin; apply Hnot; right; exact Hin).
    exfalso. apply Hnot. left. reflexivity.
Qed.

Lemma configure_swapchain_format_inv (dev : device) (o : options) (c : swap_config) :
  configure_swapchain dev o = Ok c ->
  exists first_format rest,
    surface_formats dev = first_format :: rest /\
    (image_format c, color_space c) =
      choose_surface_format (surface_formats dev) first_format.
Proof.
  unfold configure_swapchain. intros H.
  bind_inv H as u1 H1. bind_inv H as u2 H2. bind_inv H as n Hn.
  destruct (surface_formats dev) as [|first_format rest]; [discriminate H|].
  injection H as <-. exists first_format, rest.
  split; [reflexivity|]. cbn [image_format color_space].
  symmetry. apply surjective_pairing.
Qed.

(** X6: the surface format [configure_swapchain] settles on is the pair
    B8G8R8A8_SRGB with the sRGB non-linear colour space when the surface
    lists it, the first listed pair otherwise, and in both cases a pair the
    surface lists. *)
Theorem configure_swapchain_surface_format (dev : device) (o : options)
    (c : swap_config) :
  configure_swapchain dev o = Ok c ->
  (In (VK_FORMAT_B8G8R8A8_SRGB, VK_COLOR_SPACE_SRGB_NONLINEAR_KHR)
      (surface_formats dev) ->
   image_format c = VK_FORMAT_B8G8R8A8_SRGB /\
   color_space c = VK_COLOR_SPACE_SRGB_NONLINEAR_KHR) /\
  (~ In (VK_FORMAT_B8G8R8A8_SRGB, VK_COLOR_SPACE_SRGB_NONLINEAR_KHR)
       (surface_formats dev) ->
   head (surface_formats dev) = Some (image_format c, color_space c)) /\
  In (image_format c, color_space c) (surface_formats dev).
Proof.
  intros H.
  apply configure_swapchain_format_inv in H as (f & rest & Hlist & Hchosen).
  rewrite Hchosen.
  assert (Hyes : In (VK_FORMAT_B8G8R8A8_SRGB, VK_COLOR_SPACE_SRGB_NONLINEAR_KHR)
                   (surface_formats dev) ->
                 choose_surface_format (surface_formats dev) f =
                 (VK_FORMAT_B8G8R8A8_SRGB, VK_COLOR_SPACE_SRGB_NONLINEAR_KHR))
    by apply choose_surface_format_found.
  assert (Hno : ~ In (VK_FORMAT_B8G8R8A8_SRGB, VK_COLOR_SPACE_SRGB_NONLINEAR_KHR)
                    (surface_formats dev) ->
                choose_surface_format (surface_formats dev) f = f)
    by apply choose_surface_format_missing.
  split; [|split].
  - intros Hin. rewrite (Hyes Hin) in Hchosen.
    injection Hchosen as -> ->. split; reflexivity.
  - intros Hnot. rewrite (Hno Hnot), Hlist. reflexivity.
  - assert (Hdec : forall x y : Z * Z, {x = y} + {x <> y})
      by (decide equality; apply Z.eq_dec).
    destruct (in_dec Hdec
                (VK_FORMAT_B8G8R8A8_SRGB, VK_COLOR_SPACE_SRGB_NONLINEAR_KHR)
                (surface_formats dev)) as [Hin|Hnot].
    + rewrite (Hyes Hin). exact Hin.
    + rewrite (Hno Hnot), Hlist. left. reflexivity.
Qed.

Lemma check_sample_count_support_pow2 (dev : device) (k : Z) :
  0 <= k ->
  check_sample_count_support dev (2 ^ k) =
    Z.testbit (framebufferColorSampleCounts dev) k
    && Z.testbit (framebufferDepthSampleCounts dev) k.
Proof.
  intros Hk. unfold check_sample_count_support.
  rewrite (Z.land_comm (2 ^ k) (framebufferColorSampleCounts dev)).
  rewrite (Z.land_comm (2 ^ k) (framebufferDepthSampleCounts dev)).
  rewrite !land_pow2_testbit, !negb_involutive by exact Hk.
  reflexivity.
Qed.

(** X7: a sample count that [sample_count_flag] accepts is a power of two
    [2 ^ k] with [k] at most 6, its flag is the count itself, and
    [check_sample_count_support] holds for it exactly when bit [k] is set
    in both the colour and the depth sample-count mask of the device. *)
Theorem accepted_sample_count_support (dev : device) (n flag : Z) :
  sample_count_flag n = Ok flag ->
  exists k, 0 <= k <= 6 /\ n = 2 ^ k /\ flag = n /\
    (check_sample_count_support dev flag = true <->
     Z.testbit (framebufferColorSampleCounts dev) k = true /\
     Z.testbit (framebufferDepthSampleCounts dev) k = true).
Proof.
  unfold sample_count_flag. intros H.
  assert (Hcase : exists k, 0 <= k <= 6 /\ n = 2 ^ k /\ flag = n).
  { repeat match type of H with
           | (if ?n =? ?v then _ else _) = _ =>
               destruct (Z.eqb_spec n v) as [->|_]
           end; try discriminate H; injection H as <-;
      [exists 0|exists 1|exists 2|exists 3|exists 4|exists 5|exists 6];
      (split; [lia|split; reflexivity]). }
  destruct Hcase as (k & Hk & -> & ->). exists k.
  split; [exact Hk|]. split; [reflexivity|]. split; [reflexivity|].
  rewrite check_sample_count_support_pow2 by lia.
  apply andb_true_iff.
Qed.

(** ** More about the gears *)

(** A loop whose body adds [k] vertices to a counter that is not zero. *)
Lemma for_loop_adds (k : Z) (body : Z -> Z -> Z) :
  0 <= k ->
  (forall i m, 0 < m -> body i m = m + k) ->
  forall (n : nat) (i acc : Z),
    0 < acc -> for_loop n i body acc = acc + k * Z.of_nat n.
Proof.
  intros Hk Hbody. induction n as [|n IH]; intros i acc Hacc;
    cbn [for_loop].
  - lia.
  - rewrite IH by (rewrite Hbody by exact Hacc; lia).
    rewrite Hbody by exact Hacc. lia.
Qed.

(** The loops over [i <= teeth], which emit four vertices per tooth and
    two after the last one. *)
Lemma for_loop_face (teeth : Z) (body : Z -> Z -> Z) :
  (forall i m, body i m = if i <? teeth then m + 4 else m + 2) ->
  forall (n : nat) (i acc : Z),
    i + Z.of_nat n = teeth + 1 ->
    for_loop n i body acc =
      acc + 4 * Z.of_nat n - (if (n =? 0)%nat then 0 else 2).
Proof.
  intros Hbody. induction n as [|n IH]; intros i acc Hn; cbn [for_loop].
  - cbn. lia.
  - rewrite IH by lia. rewrite Hbody.
    destruct n as [|n].
    + destruct (Z.ltb_spec i teeth); cbn; lia.
    + destruct (Z.ltb_spec i teeth); cbn [Nat.eqb]; lia.
Qed.

(** X8: [create_gear] emits 46 vertices per tooth and 10 more, the
    degenerate vertices that join the strips included, as long as that
    number fits the [int] it is returned in; without teeth to loop over
    ([teeth] negative) it emits none. *)
Theorem create_gear_vertex_count (teeth : Z) :
  (0 <= teeth -> 46 * teeth + 10 <= 2147483647 ->
   create_gear teeth = 46 * teeth + 10) /\
  (teeth < 0 -> create_gear teeth = 0).
Proof.
  unfold create_gear. cbv zeta.
  assert (Hface : forall i m : Z,
            (if i <? teeth then emit 4 m else emit 2 m) =
            (if i <? teeth then m + 4 else m + 2))
    by (intros i m; destruct (i <? teeth); unfold emit, EMIT_VERTEX; cbn; lia).
  assert (Hstrip : forall (i m : Z), 0 < m -> emit 4 (START_STRIP m) = m + 6).
  { intros i m Hm. unfold START_STRIP.
    destruct (Z.eqb_spec m 0); [lia|]. unfold emit, EMIT_VERTEX. cbn. lia. }
  assert (Hquad : forall (i m : Z), 0 < m ->
            emit 4 (START_STRIP (emit 4 (START_STRIP (emit 4 (START_STRIP
              (emit 4 (START_STRIP m))))))) = m + 24).
  { intros i m Hm.
    rewrite (Hstrip i m) by lia. rewrite (Hstrip i (m + 6)) by lia.
    rewrite (Hstrip i (m + 6 + 6)) by lia.
    rewrite (Hstrip i (m + 6 + 6 + 6)) by lia. lia. }
  assert (Hpair : forall (i m : Z), 0 < m -> emit 2 m = m + 2)
    by (intros i m _; unfold emit, EMIT_VERTEX; cbn; lia).
  split; [intros Hteeth _|intros Hteeth].
  - assert (Hstart : forall m, 0 < m -> START_STRIP m = m + 2)
      by (intros m Hm; unfold START_STRIP; destruct (Z.eqb_spec m 0); lia).
    assert (Hcount : (Z.to_nat (teeth + 1) =? 0)%nat = false)
      by (apply Nat.eqb_neq; lia).
    change (START_STRIP 0) with 0.
    rewrite (for_loop_face teeth _ Hface _ 0 0) by lia.
    rewrite Hcount.
    replace (0 + 4 * Z.of_nat (Z.to_nat (teeth + 1)) - 2) with (4 * teeth + 2)
      by lia.
    rewrite (for_loop_adds 6 _ ltac:(lia) Hstrip _ 0 (4 * teeth + 2)) by lia.
    rewrite (Hstart (4 * teeth + 2 + 6 * Z.of_nat (Z.to_nat teeth))) by lia.
    rewrite (for_loop_face teeth _ Hface _ 0
               (4 * teeth + 2 + 6 * Z.of_nat (Z.to_nat teeth) + 2)) by lia.
    rewrite Hcount.
    replace (4 * teeth + 2 + 6 * Z.of_nat (Z.to_nat teeth) + 2
             + 4 * Z.of_nat (Z.to_nat (teeth + 1)) - 2)
      with (14 * teeth + 6) by lia.
    rewrite (for_loop_adds 6 _ ltac:(lia) Hstrip _ 0 (14 * teeth + 6)) by lia.
    rewrite (for_loop_adds 24 _ ltac:(lia) Hquad _ 0
               (14 * teeth + 6 + 6 * Z.of_nat (Z.to_nat teeth))) by lia.
    rewrite Hstart by lia.
    rewrite (for_loop_adds 2 _ ltac:(lia) Hpair) by lia.
    lia.
  - replace (Z.to_nat (teeth + 1)) with 0%nat by lia.
    replace (Z.to_nat teeth) with 0%nat by lia.
    reflexivity.
Qed.

(** X9: every indirect record a run of [init_gears] that returns has
    written selects entries that the execution set holds: record [i]
    selects vertex shader [i] with shader objects and pipeline [i]
    otherwise, and with shader objects its second index selects the
    fragment shader. *)
Theorem init_gears_records_select_variants (dev : device)
    (use_shader_object : bool) (g : gear_state) :
  init_gears dev use_shader_object = Ok g ->
  forall (i : nat) (r : indirect_data),
    indirect_record (indirect_map g) i = Some r ->
    execution_set g !! Z.to_nat (ies_0 r) =
      Some (if use_shader_object then VertexShader i else Pipeline i) /\
    (use_shader_object = true ->
     execution_set g !! Z.to_nat (ies_1 r) = Some FragmentShader).
Proof.
  intros Hg.
  apply init_gears_inv in Hg
    as (bytes & k & g0 & g1 & g2 & _ & _ & _ & _ & -> & ->).
  intros i r Hi.
  destruct (Nat.le_gt_cases 3 i) as [Hpast|Hin].
  { rewrite !app_assoc, indirect_record_fresh in Hi by (reflexivity || exact Hpast).
    discriminate Hi. }
  destruct use_shader_object;
    destruct i as [|[|[|i]]]; try lia;
    cbn in Hi; injection Hi as <-; (split; [reflexivity|]);
    intros Hmode; try discriminate Hmode; reflexivity.
Qed.

(** ** More about the command line *)

(** What the option loop does with its first argument. *)
Lemma parse_args_cons (c : libc) (a : string) (rest : list string) (o : options) :
  parse_args c (a :: rest) o =
    if String.eqb a "-info"%string then parse_args c rest (set_printInfo o)
    else if String.eqb a "-samples"%string && has_value rest then
      match rest with
      | v :: rest' =>
          match sample_count_flag (strtol c v) with
          | Ok flag => parse_args c rest' (set_sample_count flag o)
          | Stop why => ParseStop why
          end
      | [] => Usage
      end
    else if String.eqb a "-present-mailbox"%string then
      parse_args c rest (set_desidered_present_mode VK_PRESENT_MODE_MAILBOX_KHR o)
    else if String.eqb a "-present-immediate"%string then
      parse_args c rest (set_desidered_present_mode VK_PRESENT_MODE_IMMEDIATE_KHR o)
    else if String.eqb a "-shader-object"%string then
      parse_args c rest (set_use_shader_object o)
    else if String.eqb a "-size"%string && has_value rest then
      match rest with
      | v :: rest' => parse_args c rest' (parse_size c v o)
      | [] => Usage
      end
    else if String.eqb a "-fullscreen"%string then parse_args c rest (set_fullscreen o)
    else Usage.
Proof. reflexivity. Qed.

(** A relation between the options before and after that every option
    the loop understands respects is respected by the whole loop. *)
Lemma parse_args_respects (c : libc) (R : list string -> options -> options -> Prop) :
  (forall o, R [] o o) ->
  (forall a rest o o', R rest (set_printInfo o) o' -> a = "-info"%string ->
     R (a :: rest) o o') ->
  (forall a v rest o o' flag,
     sample_count_flag (strtol c v) = Ok flag ->
     R rest (set_sample_count flag o) o' -> a = "-samples"%string ->
     R (a :: v :: rest) o o') ->
  (forall a rest o o',
     R rest (set_desidered_present_mode VK_PRESENT_MODE_MAILBOX_KHR o) o' ->
     a = "-present-mailbox"%string -> R (a :: rest) o o') ->
  (forall a rest o o',
     R rest (set_desidered_present_mode VK_PRESENT_MODE_IMMEDIATE_KHR o) o' ->
     a = "-present-immediate"%string -> R (a :: rest) o o') ->
  (forall a rest o o', R rest (set_use_shader_object o) o' ->
     a = "-shader-object"%string -> R (a :: rest) o o') ->
  (forall a v rest o o', R rest (parse_size c v o) o' -> a = "-size"%string ->
     R (a :: v :: rest) o o') ->
  (forall a rest o o', R rest (set_fullscreen o) o' -> a = "-fullscreen"%string ->
     R (a :: rest) o o') ->
  forall argv o o', parse_args c argv o = Parsed o' -> R argv o o'.
Proof.
  intros Hnil Hinfo Hsamples Hmailbox Himmediate Hshader Hsize Hfull.
  assert (Hall : forall (n : nat) argv o o',
            (length argv <= n)%nat ->
            parse_args c argv o = Parsed o' -> R argv o o').
  { induction n as [|n IH]; intros argv o o' Hlen H.
    - destruct argv; [|cbn in Hlen; lia].
      injection H as <-. apply Hnil.
    - destruct argv as [|a rest]; [injection H as <-; apply Hnil|].
      cbn [length] in Hlen. rewrite parse_args_cons in H.
      destruct (String.eqb_spec a "-info"%string) as [Ha|_].
      { apply Hinfo; [|exact Ha]. apply IH; [lia|exact H]. }
      destruct (String.eqb_spec a "-samples"%string) as [Ha|_].
      { destruct rest as [|v rest']; cbn [has_value andb] in H.
        - subst a. cbn in H. discriminate H.
        - destruct (sample_count_flag (strtol c v)) as [flag|] eqn:Hflag;
            [|discriminate H].
          apply (Hsamples a v rest' o o' flag Hflag); [|exact Ha].
          apply IH; [cbn [length] in Hlen; lia|exact H]. }
      cbn [andb] in H.
      destruct (String.eqb_spec a "-present-mailbox"%string) as [Ha|_].
      { apply Hmailbox; [|exact Ha]. apply IH; [lia|exact H]. }
      destruct (String.eqb_spec a "-present-immediate"%string) as [Ha|_].
      { apply Himmediate; [|exact Ha]. apply IH; [lia|exact H]. }
      destruct (String.eqb_spec a "-shader-object"%string) as [Ha|_].
      { apply Hshader; [|exact Ha]. apply IH; [lia|exact H]. }
      destruct (String.eqb_spec a "-size"%string) as [Ha|_].
      { destruct rest as [|v rest']; cbn [has_value andb] in H.
        - subst a. cbn in H. discriminate H.
        - apply Hsize; [|exact Ha].
          apply IH; [cbn [length] in Hlen; lia|exact H]. }
      cbn [andb] in H.
      destruct (String.eqb_spec a "-fullscreen"%string) as [Ha|_]; [|discriminate H].
      apply Hfull; [|exact Ha]. apply IH; [lia|exact H]. }
  intros argv o o'. apply (Hall (length argv)). lia.
Qed.

Lemma sample_count_flag_accepted (n flag : Z) :
  sample_count_flag n = Ok flag -> flag = n /\ In n accepted_sample_counts.
Proof.
  unfold sample_count_flag, accepted_sample_counts. intros H.
  repeat match type of H with
         | (if ?n =? ?v then _ else _) = _ =>
             destruct (Z.eqb_spec n v) as [->|_]
         end; try discriminate H; injection H as <-;
    (split; [reflexivity|cbn; tauto]).
Qed.

Lemma parse_size_positive (c : libc) (v : string) (o : options) :
  0 < opt_width o -> 0 < opt_height o ->
  0 < opt_width (parse_size c v o) /\ 0 < opt_height (parse_size c v o) /\
  sample_count (parse_size c v o) = sample_count o /\
  desidered_present_mode (parse_size c v o) = desidered_present_mode o.
Proof.
  intros Hw Hh. unfold parse_size.
  destruct (strtok_x c v) as [|token more]; [repeat split; assumption|].
  destruct (Z.ltb_spec 0 (strtol c token));
    destruct more as [|token' more'];
    try destruct (Z.ltb_spec 0 (strtol c token'));
    cbn; repeat split; assumption.
Qed.

(** X10: an argument list that the option loop reads to its end can be
    read in two parts: the options after a prefix are those the loop gives
    for the rest, started from what the prefix left. *)
Theorem parse_args_app (c : libc) (a b : list string) (o o' : options) :
  parse_args c a o = Parsed o' ->
  parse_args c (a ++ b) o = parse_args c b o'.
Proof.
  intros H. revert b.
  apply (parse_args_respects c
           (fun a o o' => forall b, parse_args c (a ++ b) o = parse_args c b o'))
    with (argv := a) (o := o) (o' := o'); try exact H; clear.
  - intros o b. reflexivity.
  - intros a rest o o' IH -> b. cbn [app]. rewrite parse_args_cons.
    cbn. apply IH.
  - intros a v rest o o' flag Hflag IH -> b. cbn [app].
    rewrite parse_args_cons, Hflag. cbn. apply IH.
  - intros a rest o o' IH -> b. cbn [app]. rewrite parse_args_cons.
    cbn. apply IH.
  - intros a rest o o' IH -> b. cbn [app]. rewrite parse_args_cons.
    cbn. apply IH.
  - intros a rest o o' IH -> b. cbn [app]. rewrite parse_args_cons.
    cbn. apply IH.
  - intros a v rest o o' IH -> b. cbn [app]. rewrite parse_args_cons.
    cbn [String.eqb Ascii.eqb Bool.eqb andb has_value]. apply IH.
  - intros a rest o o' IH -> b. cbn [app]. rewrite parse_args_cons.
    cbn. apply IH.
Qed.

(** X11: the options the loop leaves are in range when those it started
    from are, as the defaults of [main] are: the sample count is one of
    1, 2, 4, 8, 16, 32, 64, the present mode is FIFO, mailbox or
    immediate, and width and height are positive.  The numbers read from
    the arguments are supposed to fit the [int] they are stored in. *)
Theorem parse_args_in_range (c : libc) (argv : list string) (o o' : options) :
  (forall s, -2147483648 <= strtol c s <= 2147483647) ->
  options_in_range o ->
  parse_args c argv o = Parsed o' ->
  options_in_range default_options /\ options_in_range o'.
Proof.
  intros _ Hrange H.
  split; [unfold options_in_range, accepted_sample_counts; cbn; intuition lia|].
  revert Hrange.
  apply (parse_args_respects c
           (fun _ o o' => options_in_range o -> options_in_range o'))
    with (argv := argv) (o := o) (o' := o'); try exact H; clear;
    unfold options_in_range.
  - intros o Ho. exact Ho.
  - intros a rest o o' IH _ Ho. apply IH. exact Ho.
  - intros a v rest o o' flag Hflag IH _ (Hs & Hm & Hw & Hh). apply IH.
    apply sample_count_flag_accepted in Hflag as (-> & Hin).
    cbn. repeat split; assumption.
  - intros a rest o o' IH _ (Hs & Hm & Hw & Hh). apply IH.
    cbn. repeat split; try assumption. right. left. reflexivity.
  - intros a rest o o' IH _ (Hs & Hm & Hw & Hh). apply IH.
    cbn. repeat split; try assumption. right. right. left. reflexivity.
  - intros a rest o o' IH _ Ho. apply IH. exact Ho.
  - intros a v rest o o' IH _ (Hs & Hm & Hw & Hh). apply IH.
    destruct (parse_size_positive c v o Hw Hh) as (Hw' & Hh' & -> & ->).
    repeat split; assumption.
  - intros a rest o o' IH _ Ho. apply IH. exact Ho.
Qed.

(** ** More about the window events and the frame loop *)

Section RendererMoreFacts.

Context {F : Type} {cf : CFloat F}.

Lemma deliver_new_size (ev : wsi_event) (w w' : world (F:=F)) :
  deliver ev w = Ok w' ->
  (new_width (sw w'), new_height (sw w')) =
    match ev with
    | EvResize p_new_width p_new_height => (p_new_width, p_new_height)
    | _ => (new_width (sw w), new_height (sw w))
    end /\
  animate (sc w') =
    match ev with
    | EvKey true WSI_KEY_A => negb (animate (sc w))
    | _ => animate (sc w)
    end.
Proof.
  destruct ev as [nw nh|down key|]; cbn [deliver]; intros H.
  - injection H as <-. split; reflexivity.
  - bind_inv H as s Hs. injection H as <-. cbn. split; [reflexivity|].
    unfold wsi_key_press in Hs.
    destruct down, key; cbn [negb] in Hs; try discriminate Hs;
      injection Hs as <-; reflexivity.
  - discriminate H.
Qed.

Lemma update_window_new_size (evs : list wsi_event) (w w' : world (F:=F)) :
  update_window evs w = Ok w' ->
  (new_width (sw w'), new_height (sw w')) =
    match last_resize evs with
    | Some size => size
    | None => (new_width (sw w), new_height (sw w))
    end.
Proof.
  revert w. induction evs as [|ev rest IH]; intros w H;
    cbn [update_window last_resize] in *.
  - injection H as <-. reflexivity.
  - bind_inv H as w1 Hw1. rewrite (IH _ H).
    apply deliver_new_size in Hw1 as (Hsize & _).
    destruct (last_resize rest) as [size|]; [reflexivity|].
    rewrite Hsize. destruct ev; reflexivity.
Qed.

(** X12: after the window has delivered its events the size asked for is
    that of the last resize event, and the size asked for before when there
    was none. *)
Theorem update_window_last_resize (evs : list wsi_event) (w w' : world (F:=F)) :
  update_window evs w = Ok w' ->
  (new_width (sw w'), new_height (sw w')) =
    match last_resize evs with
    | Some size => size
    | None => (new_width (sw w), new_height (sw w))
    end.
Proof. apply update_window_new_size. Qed.

(** X13: after the window has delivered its events the animation runs as
    before when the A key went down an even number of times, and the other
    way when it went down an odd number of times; key releases and other
    keys do not count. *)
Theorem update_window_toggles (evs : list wsi_event) (w w' : world (F:=F)) :
  update_window evs w = Ok w' ->
  animate (sc w') = xorb (animate (sc w)) (toggles evs).
Proof.
  revert w. induction evs as [|ev rest IH]; intros w H;
    cbn [update_window] in H.
  - injection H as <-. cbn. destruct (animate (sc w)); reflexivity.
  - bind_inv H as w1 Hw1. rewrite (IH _ H).
    apply deliver_new_size in Hw1 as (_ & ->).
    destruct ev as [nw nh|[|] [| | | | | |]|]; cbn [toggles];
      try reflexivity.
    destruct (animate (sc w)), (toggles rest); reflexivity.
Qed.

(** X14: the callbacks end the program, with [exit(0)], exactly when one
    of the events is the closing of the window or the Esc key going down;
    otherwise [update_window] returns. *)
Theorem update_window_exit (evs : list wsi_event) (w : world (F:=F)) :
  (existsb asks_exit evs = true -> update_window evs w = Stop ExitOk) /\
  (existsb asks_exit evs = false -> exists w', update_window evs w = Ok w').
Proof.
  revert w. induction evs as [|ev rest IH]; intros w;
    cbn [update_window existsb].
  - split; [discriminate|]. intros _. exists w. reflexivity.
  - destruct ev as [nw nh|down key|]; cbn [asks_exit deliver bind orb].
    + apply IH.
    + unfold wsi_key_press.
      destruct down, key; cbn [negb bind orb];
        try apply IH; split; [reflexivity|discriminate].
    + split; [reflexivity|discriminate].
Qed.

(** X15: the callbacks change the scene and the size asked for, and nothing
    else: not the swapchain, its configuration and its size, not the
    gears, the timers, the ring index, the first-use flags or the record of
    presented images; and no key changes the rotation angle. *)
Theorem update_window_leaves_renderer (evs : list wsi_event)
    (w w' : world (F:=F)) :
  update_window evs w = Ok w' ->
  res (sw w') = res (sw w) /\ cfg (sw w') = cfg (sw w) /\
  opts (sw w') = opts (sw w) /\
  width (sw w') = width (sw w) /\ height (sw w') = height (sw w) /\
  gs w' = gs w /\ tm w' = tm w /\ frame_index w' = frame_index w /\
  first w' = first w /\ presented w' = presented w /\
  angle (sc w') = angle (sc w).
Proof.
  intros H. apply update_window_keeps in H.
  repeat match goal with H : _ /\ _ |- _ => destruct H end.
  repeat split; assumption.
Qed.

(** One turn of the loop with the test that chooses between recreating
    the swapchain and rendering. *)
Lemma loop_body_branches (dev : device) (inp : frame_input) (w w' : world (F:=F)) :
  loop_body dev inp w = Ok w' ->
  exists w1 w2,
    update_window (events inp) (advance_rotation (now inp) w) = Ok w1 /\
    wait_slot w1 = Ok w2 /\
    (((acquire_result inp = VK_SUBOPTIMAL_KHR \/
       width (sw w2) <> new_width (sw w2) \/
       height (sw w2) <> new_height (sw w2)) /\
      exists s, recreate_swapchain dev (sw w2) = Ok s /\
                w' = with_first (replicate 4 false) (with_sw s w2)) \/
     (acquire_result inp = VK_SUCCESS /\
      width (sw w2) = new_width (sw w2) /\
      height (sw w2) = new_height (sw w2) /\
      (image_index inp < 5)%nat /\
      render_frame (now inp) (image_index inp) w2 = Ok w')).
Proof.
  unfold loop_body. intros H.
  bind_inv H as w1 Hw1.
  destruct (window_closed inp); [discriminate H|].
  bind_inv H as w2 Hw2.
  exists w1, w2. split; [exact Hw1|]. split; [exact Hw2|].
  destruct (Z.eqb_spec (acquire_result inp) VK_SUBOPTIMAL_KHR) as [Hsub|Hsub];
    destruct (Z.eqb_spec (width (sw w2)) (new_width (sw w2))) as [Hw|Hw];
    destruct (Z.eqb_spec (height (sw w2)) (new_height (sw w2))) as [Hh|Hh];
    cbn [orb negb] in H;
    try (bind_inv H as s Hs; injection H as <-; left;
         split; [tauto|exists s; split; trivial]).
  bind_inv H as u Hres. bind_inv H as u' Hidx. right.
  unfold assert in Hres, Hidx.
  destruct (Z.eqb_spec (acquire_result inp) VK_SUCCESS); [|discriminate Hres].
  destruct (Nat.ltb_spec (image_index inp) 5); [|discriminate Hidx].
  repeat split; assumption.
Qed.

Lemma record_commands_extents (w : world (F:=F)) (i : nat) (cmds : list cmd) :
  record_commands w i = Ok cmds ->
  render_extents cmds =
    [(width (sw w), height (sw w)); (width (sw w), height (sw w))].
Proof.
  unfold record_commands. intros H.
  destruct (first w !! i); [|discriminate H].
  destruct (image_data (res (sw w)) !! frame_index w); [|discriminate H].
  destruct (image_data (res (sw w)) !! i); [|discriminate H].
  injection H as <-. reflexivity.
Qed.

(** What a turn that completes has done: it has recreated the swapchain
    and rendered nothing, or it has rendered, submitted and presented one
    frame. *)
Lemma loop_body_effects (dev : device) (inp : frame_input) (w w' : world (F:=F)) :
  loop_body dev inp w = Ok w' ->
  width (sw w') = new_width (sw w') /\
  height (sw w') = new_height (sw w') /\
  (new_width (sw w'), new_height (sw w')) =
    match last_resize (events inp) with
    | Some size => size
    | None => (new_width (sw w), new_height (sw w))
    end /\
  ((first w' = replicate 4 false /\
    frame_index w' = frame_index w /\
    presented w' = presented w /\
    frames (tm w') = frames (tm w) /\
    frame_data (res (sw w')) =
      replicate MAX_CONCURRENT_FRAMES
        {| fence := FenceSignaledAtCreation; cmd_buffer := [] |}) \/
   (acquire_result inp = VK_SUCCESS /\
    (image_index inp < 5)%nat /\
    width (sw w') = width (sw w) /\ height (sw w') = height (sw w) /\
    first w' = <[image_index inp := true]> (first w) /\
    frame_index w' = (S (frame_index w) mod 2)%nat /\
    presented w' = image_index inp :: presented w /\
    exists cmds,
      frame_data (res (sw w')) !! frame_index w =
        Some {| fence := FencePending (frame_index w); cmd_buffer := cmds |} /\
      render_extents cmds =
        [(width (sw w'), height (sw w')); (width (sw w'), height (sw w'))])).
Proof.
  intros H. apply loop_body_branches in H as (w1 & w2 & Hw1 & Hw2 & Hrest).
  pose proof (update_window_new_size _ _ _ Hw1) as Hsize.
  apply update_window_keeps in Hw1
    as (_ & Hres & _ & _ & Hwidth & Hheight & _ & Htm & Hfi & Hfirst & Hpres).
  destruct (advance_rotation_keeps (now inp) w) as (Hsw0 & Hfi0 & Hfirst0).
  rewrite Hsw0 in Hres, Hwidth, Hheight, Hsize.
  rewrite Hfi0 in Hfi. rewrite Hfirst0 in Hfirst.
  assert (Hpres0 : presented (advance_rotation (now inp) w) = presented w)
    by (unfold advance_rotation; cbn; destruct (animate (sc w)); reflexivity).
  assert (Hframes0 : frames (tm (advance_rotation (now inp) w)) = frames (tm w))
    by (unfold advance_rotation; cbn; destruct (animate (sc w)); reflexivity).
  rewrite Hpres0 in Hpres.
  apply wait_slot_inv in Hw2 as (slot & Hidx & Hslot & _ & ->).
  destruct Hrest as [(_ & s & Hs & ->)|(Hok & Hw & Hh & Himg & Hrender)].
  - apply recreate_swapchain_state in Hs
      as (_ & _ & Hw' & Hh' & Hnw' & Hnh' & _ & _ & Hframes).
    cbn in Hw', Hh', Hnw', Hnh'. cbn.
    rewrite Hw', Hh', Hnw', Hnh'.
    split; [reflexivity|]. split; [reflexivity|]. split; [exact Hsize|].
    left. rewrite Hframes, Hfi, Hpres, Htm, Hframes0.
    repeat split; reflexivity.
  - cbn in Hw, Hh.
    apply render_frame_inv in Hrender as (cmds & Hcmds & ->).
    apply record_commands_extents in Hcmds. cbn in Hcmds. cbn.
    split; [exact Hw|]. split; [exact Hh|]. split; [exact Hsize|].
    right. rewrite Hfi, Hwidth, Hheight, Hfirst, Hpres.
    repeat split; try assumption; try reflexivity.
    + unfold MAX_CONCURRENT_FRAMES in *. rewrite Hfi in Hidx. clear - Hidx.
      destruct (frame_index w) as [|[|n]]; cbn; lia.
    + exists cmds. split.
      * apply list_lookup_insert_eq. rewrite length_insert.
        rewrite Hfi in Hslot. apply lookup_lt_Some in Hslot.
        rewrite Hres in Hslot. rewrite Hres. exact Hslot.
      * rewrite Hcmds, Hwidth, Hheight. reflexivity.
Qed.

(** X16: a turn of the loop that completes has done one of two things.
    It has recreated the swapchain: the first-use flags are cleared, every
    fence of the ring is signaled anew with an empty command buffer, and
    ring index, frame counter and presented images are as before.  Or the
    driver answered [VK_SUCCESS] with an image index below 5 and the turn
    has rendered one frame: the flag of that image is set, the image is
    presented, the fence of the slot is attached to the submission, and
    the ring index has moved on by one modulo 2. *)
Theorem loop_body_recreates_or_renders (dev : device) (inp : frame_input)
    (w w' : world (F:=F)) :
  loop_body dev inp w = Ok w' ->
  (first w' = replicate 4 false /\
   frame_index w' = frame_index w /\
   presented w' = presented w /\
   frames (tm w') = frames (tm w) /\
   frame_data (res (sw w')) =
     replicate MAX_CONCURRENT_FRAMES
       {| fence := FenceSignaledAtCreation; cmd_buffer := [] |}) \/
  (acquire_result inp = VK_SUCCESS /\
   (image_index inp < 5)%nat /\
   first w' = <[image_index inp := true]> (first w) /\
   frame_index w' = (S (frame_index w) mod 2)%nat /\
   presented w' = image_index inp :: presented w /\
   exists cmds,
     frame_data (res (sw w')) !! frame_index w =
       Some {| fence := FencePending (frame_index w); cmd_buffer := cmds |}).
Proof.
  intros H. apply loop_body_effects in H as (_ & _ & _ & [Hre|Hrender]).
  - left. exact Hre.
  - right.
    destruct Hrender
      as (Hok & Hidx & _ & _ & Hfirst & Hfi & Hpres & cmds & Hslot & _).
    repeat split; try assumption. exists cmds. exact Hslot.
Qed.

(** X17: after every turn that completes, the swapchain has the size the
    window asked for last: that of the last resize event of the turn, or
    the size asked for before the turn when it brought none. *)
Theorem loop_body_size_follows_window (dev : device) (inp : frame_input)
    (w w' : world (F:=F)) :
  loop_body dev inp w = Ok w' ->
  (width (sw w'), height (sw w')) =
    match last_resize (events inp) with
    | Some size => size
    | None => (new_width (sw w), new_height (sw w))
    end /\
  new_width (sw w') = width (sw w') /\ new_height (sw w') = height (sw w').
Proof.
  intros H. apply loop_body_effects in H as (Hw & Hh & Hsize & _).
  rewrite Hw, Hh. split; [exact Hsize|]. split; reflexivity.
Qed.

(** X18: a frame is rendered only at the size the window asked for last:
    when a turn has presented an image, the render area and the viewport
    of the commands it submitted are that size, and the swapchain had that
    size before the turn. *)
Theorem loop_body_renders_at_window_size (dev : device) (inp : frame_input)
    (w w' : world (F:=F)) :
  loop_body dev inp w = Ok w' ->
  presented w' <> presented w ->
  (width (sw w), height (sw w)) = (new_width (sw w'), new_height (sw w')) /\
  exists cmds,
    frame_data (res (sw w')) !! frame_index w =
      Some {| fence := FencePending (frame_index w); cmd_buffer := cmds |} /\
    render_extents cmds =
      [(new_width (sw w'), new_height (sw w'));
       (new_width (sw w'), new_height (sw w'))].
Proof.
  intros H Hpresented.
  apply loop_body_effects in H as (Hw & Hh & _ & [Hre|Hrender]).
  - destruct Hre as (_ & _ & Hsame & _). contradiction.
  - destruct Hrender
      as (_ & _ & Hwidth & Hheight & _ & _ & _ & cmds & Hslot & Hextents).
    split; [rewrite <- Hw, <- Hh, Hwidth, Hheight; reflexivity|].
    exists cmds. split; [exact Hslot|].
    rewrite Hextents, Hw, Hh. reflexivity.
Qed.

(** A property of the state that [main] enters the loop with and that
    every turn keeps holds after any number of turns. *)
Lemma run_frames_keeps (dev : device) (P : world (F:=F) -> Prop) :
  (forall inp w w', P w -> loop_body dev inp w = Ok w' -> P w') ->
  forall inputs w0 w, P w0 -> run_frames dev inputs w0 = Ok w -> P w.
Proof.
  intros Hstep. induction inputs as [|inp rest IH]; intros w0 w H0 H;
    cbn [run_frames] in H.
  - injection H as <-. exact H0.
  - bind_inv H as w1 Hw1. apply (IH w1); [|exact H].
    eapply Hstep; eassumption.
Qed.

Lemma main_loop_entry (c : libc) (dev : device) (argv : list string)
    (w0 : world (F:=F)) :
  snd (main c dev argv) = Ok w0 ->
  frame_index w0 = 0%nat /\ presented w0 = [] /\
  first w0 = replicate 4 false /\ sc w0 = initial_scene.
Proof.
  unfold main. intros H.
  destruct (parse_args c argv default_options) as [o| |why];
    try discriminate H.
  destruct (init_vk_failure dev); [discriminate H|].
  destruct (negb (check_sample_count_support dev (sample_count o)));
    [discriminate H|].
  destruct (negb (create_surface_ok dev)); [discriminate H|].
  destruct (configure_swapchain dev o) as [config|]; [|discriminate H].
  destruct (create_swapchain dev _) as [s|]; [|discriminate H].
  destruct (init_gears dev (use_shader_object o)) as [g|]; [|discriminate H].
  cbn [snd] in H. injection H as <-. repeat split; reflexivity.
Qed.

(** X19: the ring is used round robin: at the head of every turn the ring
    index is the number of frames presented so far, modulo 2; a turn that
    recreates the swapchain does not restart it. *)
Theorem frame_index_counts_presented (c : libc) (dev : device)
    (argv : list string) (inputs : list frame_input) (w0 w : world (F:=F)) :
  snd (main c dev argv) = Ok w0 ->
  run_frames dev inputs w0 = Ok w ->
  frame_index w = (length (presented w) mod 2)%nat.
Proof.
  intros Hmain Hrun.
  apply (run_frames_keeps dev
           (fun w => frame_index w = (length (presented w) mod 2)%nat))
    with (inputs := inputs) (w0 := w0); try exact Hrun.
  - clear. intros inp w w' Hinv H.
    apply loop_body_effects in H as (_ & _ & _ & [Hre|Hrender]).
    + destruct Hre as (_ & -> & -> & _). exact Hinv.
    + destruct Hrender as (_ & _ & _ & _ & _ & -> & -> & _).
      rewrite Hinv. cbn [length].
      change (S (length (presented w) mod 2)) with (1 + length (presented w) mod 2)%nat.
      change (S (length (presented w))) with (1 + length (presented w))%nat.
      apply Nat.Div0.add_mod_idemp_r.
  - apply main_loop_entry in Hmain as (-> & -> & _). reflexivity.
Qed.

(** X20: the array of first-use flags has four entries while the loop
    lets image indices up to 4 pass: at the head of every turn, rendering the
    image of index 4 reads [first[4]], outside the array, and a turn that
    is handed index 4 completes only when it recreates the swapchain
    instead of rendering. *)
Theorem image_index_four_out_of_bounds (c : libc) (dev : device)
    (argv : list string) (inputs : list frame_input) (w0 w : world (F:=F)) :
  snd (main c dev argv) = Ok w0 ->
  run_frames dev inputs w0 = Ok w ->
  length (first w) = 4%nat /\
  (forall t, render_frame t 4 w = Stop Undefined) /\
  (forall inp w',
     image_index inp = 4%nat -> loop_body dev inp w = Ok w' ->
     presented w' = presented w /\ first w' = replicate 4 false).
Proof.
  intros Hmain Hrun.
  assert (Hlen : length (first w) = 4%nat).
  { apply (run_frames_keeps dev (fun w => length (first w) = 4%nat))
      with (inputs := inputs) (w0 := w0); try exact Hrun.
    - clear. intros inp w w' Hinv H.
      apply loop_body_effects in H as (_ & _ & _ & [Hre|Hrender]).
      + destruct Hre as (-> & _). apply length_replicate.
      + destruct Hrender as (_ & _ & _ & _ & -> & _).
        rewrite length_insert. exact Hinv.
    - apply main_loop_entry in Hmain as (_ & _ & -> & _).
      apply length_replicate. }
  assert (Hrender : forall t (v : world (F:=F)),
            first v = first w -> render_frame t 4 v = Stop Undefined).
  { intros t v Hv. unfold render_frame, record_commands.
    rewrite Hv, (lookup_ge_None_2 (first w) 4) by lia. reflexivity. }
  split; [exact Hlen|]. split; [intros t; apply Hrender; reflexivity|].
  intros inp w' Hfour H.
  apply loop_body_branches in H as (w1 & w2 & Hw1 & Hw2 & Hrest).
  apply update_window_keeps in Hw1
    as (_ & _ & _ & _ & _ & _ & _ & _ & _ & Hfirst & Hpres).
  destruct (advance_rotation_keeps (now inp) w) as (_ & _ & Hfirst0).
  assert (Hpres0 : presented (advance_rotation (now inp) w) = presented w)
    by (unfold advance_rotation; cbn; destruct (animate (sc w)); reflexivity).
  apply wait_slot_inv in Hw2 as (slot & _ & _ & _ & ->).
  destruct Hrest as [(_ & s & _ & ->)|(_ & _ & _ & _ & Hr)].
  - cbn. rewrite Hpres, Hpres0. split; reflexivity.
  - exfalso. rewrite Hfour, Hrender in Hr; [discriminate Hr|].
    cbn. rewrite Hfirst, Hfirst0. reflexivity.
Qed.

(** *** What [create_swapchain] leaves in its arrays *)

Lemma store_images_spec (images : list Z) (format : Z) :
  forall (i : nat) (data data' : list image_slot),
    store_images images format i data = Ok data' ->
    (images <> [] -> (i + length images <= 5)%nat) /\
    length data' = length data /\
    (forall (k : nat) (img : Z),
       images !! k = Some img -> (i + k < length data)%nat ->
       data' !! (i + k)%nat =
         Some {| image := img;
                 view := {| view_image := img; view_format := format;
                            view_aspect := VK_IMAGE_ASPECT_COLOR_BIT |} |}) /\
    (forall j : nat,
       (j < i)%nat \/ (i + length images <= j)%nat -> data' !! j = data !! j).
Proof.
  induction images as [|img rest IH]; intros i data data' H;
    cbn [store_images] in H.
  - injection H as <-. split; [congruence|]. split; [reflexivity|].
    split; [intros k img' Hk; discriminate Hk|]. intros j _. reflexivity.
  - destruct (Nat.leb_spec 5 i) as [|Hi]; [discriminate H|].
    apply IH in H as (Hfits & Hlen & Hnew & Hold).
    rewrite length_insert in Hlen.
    split; [|split; [exact Hlen|split]].
    + intros _. cbn [length].
      destruct rest as [|img' rest']; [cbn; lia|].
      assert (img' :: rest' <> []) by discriminate.
      specialize (Hfits H). cbn [length] in *. lia.
    + intros k img' Hk Hbound. destruct k as [|k].
      * injection Hk as <-. rewrite Nat.add_0_r.
        rewrite Hold by (left; lia).
        apply list_lookup_insert_eq. lia.
      * replace (i + S k)%nat with (S i + k)%nat by lia.
        apply Hnew; [exact Hk|]. rewrite length_insert. lia.
    + intros j Hj. cbn [length] in Hj.
      rewrite Hold by lia.
      apply list_lookup_insert_ne. lia.
Qed.

(** X21: when [create_swapchain] returns, the driver has handed out
    between one and five swapchain images, [image_count] is their number,
    entry [k] of [image_data] holds the image of index [k] with a colour
    view of it in the swapchain's format, and the entries from
    [image_count] on are what they were. *)
Theorem create_swapchain_image_data (dev : device) (s s' : swap_state (F:=F)) :
  length (image_data (res s)) = 5%nat ->
  create_swapchain dev s = Ok s' ->
  let images := swapchain_images dev (swapchain_create_info s) in
  (0 < length images <= 5)%nat /\
  image_count (res s') = Z.of_nat (length images) /\
  length (image_data (res s')) = 5%nat /\
  (forall (k : nat) (img : Z),
     images !! k = Some img ->
     image_data (res s') !! k =
       Some {| image := img;
               view := {| view_image := img;
                          view_format := image_format (cfg s);
                          view_aspect := VK_IMAGE_ASPECT_COLOR_BIT |} |}) /\
  (forall k : nat,
     (length images <= k)%nat ->
     image_data (res s') !! k = image_data (res s) !! k).
Proof.
  intros Hfive H. unfold create_swapchain in H.
  bind_inv H as u Hassert. bind_inv H as msaa Hmsaa.
  bind_inv H as depth Hdepth. bind_inv H as data Hdata.
  injection H as <-. cbn [res image_count image_data with_res].
  set (images := swapchain_images dev (swapchain_create_info s)) in *.
  cbv zeta.
  assert (Hsome : (0 < length images)%nat).
  { unfold assert in Hassert.
    destruct (Z.ltb_spec 0 (Z.of_nat (length images)));
      [lia|discriminate Hassert]. }
  apply store_images_spec in Hdata as (Hfits & Hlen & Hnew & Hold).
  assert (Hne : images <> []) by (destruct images; [cbn in Hsome; lia|discriminate]).
  specialize (Hfits Hne). cbn [plus] in Hfits.
  split; [lia|]. split; [reflexivity|]. split; [congruence|].
  split.
  - intros k img Hk.
    apply (Hnew k img Hk). apply lookup_lt_Some in Hk. cbn [plus]. lia.
  - intros k Hk. apply Hold. right. cbn [plus]. exact Hk.
Qed.

Lemma create_attachment_inv (dev : device) (info : image_info) (aspect : Z)
    (m1 m2 m3 : string) (img memory_type : Z) (v : VkImageView) :
  create_attachment dev info aspect m1 m2 m3 = Ok (img, memory_type, v) ->
  exists memoryTypeBits,
    create_image_answer dev info = Some (img, memoryTypeBits) /\
    image_memory_type (mem_props dev) memoryTypeBits = Ok memory_type /\
    v = {| view_image := img; view_format := im_format info;
           view_aspect := aspect |}.
Proof.
  unfold create_attachment. intros H.
  destruct (create_image_answer dev info) as [[img' bits]|]; [|discriminate H].
  bind_inv H as mt Hmt.
  destruct (negb (allocate_memory_ok dev img' mt)); [discriminate H|].
  destruct (negb (create_image_view_ok dev img' (im_format info) aspect));
    [discriminate H|].
  injection H as <- <- <-. exists bits. repeat split. exact Hmt.
Qed.

(** X22: when [create_swapchain] returns, the depth image is one the
    driver created in the depth format, at the swapchain's size and sample
    count; its view is a depth view of it in that format; and its memory
    type is one the image accepts that is lazily allocated or device
    local.  Without multisampling the resolve image, its view and its
    memory are left as they were. *)
Theorem create_swapchain_depth_attachment (dev : device)
    (s s' : swap_state (F:=F)) :
  create_swapchain dev s = Ok s' ->
  (exists memoryTypeBits,
     create_image_answer dev
       {| im_format := depth_format (cfg s);
          im_width := width s; im_height := height s;
          im_samples := sample_count (opts s);
          im_usage := Z.lor VK_IMAGE_USAGE_DEPTH_STENCIL_ATTACHMENT_BIT
                        VK_IMAGE_USAGE_TRANSIENT_ATTACHMENT_BIT |}
       = Some (depth_image (res s'), memoryTypeBits) /\
     Z.testbit memoryTypeBits (depth_memory (res s')) = true /\
     (Z.land (propertyFlags (mem_props dev) (depth_memory (res s')))
        VK_MEMORY_PROPERTY_LAZILY_ALLOCATED_BIT
        = VK_MEMORY_PROPERTY_LAZILY_ALLOCATED_BIT \/
      Z.land (propertyFlags (mem_props dev) (depth_memory (res s')))
        VK_MEMORY_PROPERTY_DEVICE_LOCAL_BIT
        = VK_MEMORY_PROPERTY_DEVICE_LOCAL_BIT)) /\
  depth_view (res s') =
    {| view_image := depth_image (res s');
       view_format := depth_format (cfg s);
       view_aspect := VK_IMAGE_ASPECT_DEPTH_BIT |} /\
  (sample_count (opts s) = VK_SAMPLE_COUNT_1_BIT ->
   color_msaa (res s') = color_msaa (res s) /\
   color_msaa_view (res s') = color_msaa_view (res s) /\
   color_msaa_memory (res s') = color_msaa_memory (res s)).
Proof.
  intros H. unfold create_swapchain in H.
  bind_inv H as u Hassert. bind_inv H as msaa Hmsaa.
  bind_inv H as depth Hdepth. bind_inv H as data Hdata.
  injection H as <-. cbn.
  destruct depth as [[img mt] v]. cbn.
  apply create_attachment_inv in Hdepth as (bits & Hanswer & Hmt & ->).
  apply image_memory_type_flags in Hmt as (_ & Hbit & Hflags).
  split; [exists bits; repeat split; assumption|].
  split; [reflexivity|].
  intros Hone. rewrite Hone in Hmsaa. cbn in Hmsaa.
  injection Hmsaa as <-. repeat split; reflexivity.
Qed.

End RendererMoreFacts.

(** ** The further properties on the example driver *)

(** Device-local memory for a resource that accepts both types of
    [two_memory_types]: type 0. *)
Lemma find_memory_type_sound_witness :
  find_memory_type two_memory_types 3 VK_MEMORY_PROPERTY_DEVICE_LOCAL_BIT = Ok 0 /\
  Z.testbit 3 0 = true.
Proof.
  assert (H : find_memory_type two_memory_types 3
                VK_MEMORY_PROPERTY_DEVICE_LOCAL_BIT = Ok 0) by reflexivity.
  split; [exact H|].
  destruct (find_memory_type_sound _ _ _ _ H) as [Hnone|(_ & _ & Hbit & _)].
  - discriminate Hnone.
  - exact Hbit.
Defined.

(** Types 0 and 2 of [three_memory_types] are device local; the search
    returns type 0. *)
Lemma find_memory_type_lowest_witness :
  exists i, find_memory_type three_memory_types 7
              VK_MEMORY_PROPERTY_DEVICE_LOCAL_BIT = Ok i /\
            i <= 2.
Proof.
  assert (Hsuit : suitable three_memory_types 7
                    VK_MEMORY_PROPERTY_DEVICE_LOCAL_BIT 2)
    by (split; [cbn; lia|split; reflexivity]).
  destruct (find_memory_type_lowest three_memory_types 7
              VK_MEMORY_PROPERTY_DEVICE_LOCAL_BIT 2
              ltac:(lia) ltac:(cbn; lia) Hsuit) as (i & Hi & _ & Hlow).
  exists i. split; [exact Hi|]. apply Hlow. exact Hsuit.
Defined.

(** No type of [two_memory_types] is lazily allocated. *)
Lemma find_memory_type_fails_iff_witness :
  find_memory_type two_memory_types 3 VK_MEMORY_PROPERTY_LAZILY_ALLOCATED_BIT
    = Ok (-1) /\
  ~ suitable two_memory_types 3 VK_MEMORY_PROPERTY_LAZILY_ALLOCATED_BIT 1.
Proof.
  assert (H : find_memory_type two_memory_types 3
                VK_MEMORY_PROPERTY_LAZILY_ALLOCATED_BIT = Ok (-1))
    by reflexivity.
  split; [exact H|].
  apply (proj1 (find_memory_type_fails_iff two_memory_types 3
                  VK_MEMORY_PROPERTY_LAZILY_ALLOCATED_BIT
                  ltac:(cbn; lia) ltac:(cbn; lia)) H).
Defined.

(** On [three_memory_types] an attachment gets the lazily allocated
    type 2. *)
Lemma image_memory_type_sound_witness :
  image_memory_type three_memory_types 7 = Ok 2 /\
  Z.testbit 7 2 = true /\
  exists m, image_memory_type three_memory_types 7 = Ok m /\
            suitable three_memory_types 7
              VK_MEMORY_PROPERTY_LAZILY_ALLOCATED_BIT m.
Proof.
  assert (H : image_memory_type three_memory_types 7 = Ok 2) by reflexivity.
  destruct (image_memory_type_sound three_memory_types 7) as (Hsound & Hprefers).
  split; [exact H|]. split.
  - destruct (Hsound 2 H) as (_ & Hbit & _). exact Hbit.
  - apply (Hprefers 2); [lia|cbn; lia|].
    split; [cbn; lia|split; reflexivity].
Defined.

(** A buffer that accepts type 1 of [example_device] gets it; it is host
    visible. *)
Lemma allocate_buffer_mem_sound_witness :
  allocate_buffer_mem example_device 2 = Ok 1 /\
  Z.testbit (propertyFlags (mem_props example_device) 1) 1 = true.
Proof.
  assert (H : allocate_buffer_mem example_device 2 = Ok 1) by reflexivity.
  split; [exact H|].
  destruct (proj1 (allocate_buffer_mem_sound example_device 2) 1 H)
    as (_ & _ & Hvisible & _).
  exact Hvisible.
Defined.

(** [example_device] lists B8G8R8A8_SRGB second; it is chosen. *)
Lemma configure_swapchain_surface_format_witness :
  exists c : swap_config,
    configure_swapchain example_device default_options = Ok c /\
    image_format c = VK_FORMAT_B8G8R8A8_SRGB /\
    In (image_format c, color_space c) (surface_formats example_device).
Proof.
  eexists. split; [reflexivity|].
  destruct (configure_swapchain_surface_format example_device default_options
              _ eq_refl) as (Hfound & _ & Hlisted).
  split; [|exact Hlisted].
  apply Hfound. cbn. right. left. reflexivity.
Defined.

(** Four samples: bit 2 of both masks of [example_device] is set. *)
Lemma accepted_sample_count_support_witness :
  sample_count_flag 4 = Ok 4 /\
  exists k, 4 = 2 ^ k /\
    (check_sample_count_support example_device 4 = true <->
     Z.testbit (framebufferColorSampleCounts example_device) k = true /\
     Z.testbit (framebufferDepthSampleCounts example_device) k = true).
Proof.
  assert (H : sample_count_flag 4 = Ok 4) by reflexivity.
  split; [exact H|].
  destruct (accepted_sample_count_support example_device 4 4 H)
    as (k & _ & Hpow & _ & Hiff).
  exists k. split; [exact Hpow|exact Hiff].
Defined.

(** The first gear has twenty teeth and 930 vertices. *)
Lemma create_gear_vertex_count_witness : create_gear 20 = 46 * 20 + 10.
Proof.
  apply (proj1 (create_gear_vertex_count 20)); lia.
Defined.

(** With shader objects record 1 of [example_device] holds index 2, the
    entry of the second vertex shader. *)
Lemma init_gears_records_select_variants_witness :
  exists (g : gear_state) (r : indirect_data),
    init_gears example_device true = Ok g /\
    indirect_record (indirect_map g) 1 = Some r /\
    ies_0 r = 2 /\
    execution_set g !! Z.to_nat (ies_0 r) = Some (VertexShader 1).
Proof.
  eexists. eexists.
  run_first as H.
  run_first as Hrecord.
  split; [reflexivity|].
  apply (init_gears_records_select_variants example_device true _ H 1%nat _
           Hrecord).
Defined.

(** [-shader-object] followed by a request for sixteen samples. *)
Lemma parse_args_app_witness :
  parse_args example_libc (["-shader-object"%string] ++ sixteen_samples)
    default_options =
  parse_args example_libc sixteen_samples (set_use_shader_object default_options).
Proof.
  apply (parse_args_app example_libc ["-shader-object"%string] sixteen_samples).
  reflexivity.
Defined.

(** Sixteen samples asked for on the command line. *)
Lemma parse_args_in_range_witness :
  exists o : options,
    parse_args example_libc sixteen_samples default_options = Parsed o /\
    options_in_range o.
Proof.
  eexists. split; [reflexivity|].
  assert (Hint : forall s, -2147483648 <= strtol example_libc s <= 2147483647)
    by (intros s; cbn; destruct (String.eqb s "16"); lia).
  assert (Hdefault : options_in_range default_options)
    by (unfold options_in_range, accepted_sample_counts; cbn; intuition lia).
  apply (parse_args_in_range example_libc sixteen_samples default_options _
           Hint Hdefault eq_refl).
Defined.

(** Two resize events and the A key in one turn: the second size is the
    one asked for. *)
Lemma update_window_last_resize_witness :
  exists w' : world (F:=Z),
    update_window [EvResize 640 480; EvKey true WSI_KEY_A; EvResize 800 600]
      example_world = Ok w' /\
    (new_width (sw w'), new_height (sw w')) = (800, 600).
Proof.
  eexists. run_first as H.
  exact (update_window_last_resize _ _ _ H).
Defined.

(** The A key down, up and down again: the animation runs as before. *)
Lemma update_window_toggles_witness :
  exists w' : world (F:=Z),
    update_window
      [EvKey true WSI_KEY_A; EvKey false WSI_KEY_A; EvKey true WSI_KEY_A]
      example_world = Ok w' /\
    animate (sc w') = animate (sc example_world).
Proof.
  eexists. run_first as H.
  pose proof (update_window_toggles _ _ _ H) as Htoggles.
  rewrite Htoggles. reflexivity.
Defined.

(** The Esc key after a resize ends the program; a released Esc key does
    not. *)
Lemma update_window_exit_witness :
  update_window [EvResize 640 480; EvKey true WSI_KEY_ESC] example_world
    = Stop ExitOk /\
  exists w' : world (F:=Z),
    update_window [EvKey false WSI_KEY_ESC] example_world = Ok w'.
Proof.
  split.
  - apply (proj1 (update_window_exit
                    [EvResize 640 480; EvKey true WSI_KEY_ESC] example_world)).
    reflexivity.
  - apply (proj2 (update_window_exit [EvKey false WSI_KEY_ESC] example_world)).
    reflexivity.
Defined.

(** A resize and a key leave the ring index and the first-use flags
    alone. *)
Lemma update_window_leaves_renderer_witness :
  exists w' : world (F:=Z),
    update_window [EvResize 640 480; EvKey true WSI_KEY_UP] example_world
      = Ok w' /\
    frame_index w' = frame_index example_world /\
    first w' = first example_world.
Proof.
  eexists. run_first as H.
  destruct (update_window_leaves_renderer _ _ _ H)
    as (_ & _ & _ & _ & _ & _ & _ & Hfi & Hfirst & _).
  split; [exact Hfi|exact Hfirst].
Defined.

(** The first turn on [example_device] renders image 1 from slot 0. *)
Lemma loop_body_recreates_or_renders_witness :
  exists w' : world (F:=Z),
    loop_body example_device (turn 10 [] 1) example_world = Ok w' /\
    (first w' = replicate 4 false \/ presented w' = [1%nat]).
Proof.
  eexists. run_first as H.
  destruct (loop_body_recreates_or_renders _ _ _ _ H)
    as [(Hcleared & _)|(_ & _ & _ & _ & Hpresented & _)].
  - left. exact Hcleared.
  - right. exact Hpresented.
Defined.

(** A turn that brings a resize to 800 by 600 leaves the swapchain at that
    size. *)
Lemma loop_body_size_follows_window_witness :
  exists w' : world (F:=Z),
    loop_body example_device (turn 10 [EvResize 800 600] 1) example_world
      = Ok w' /\
    (width (sw w'), height (sw w')) = (800, 600).
Proof.
  eexists. run_first as H.
  destruct (loop_body_size_follows_window _ _ _ _ H) as (Hsize & _).
  exact Hsize.
Defined.

(** The first turn renders at 300 by 300, the size [main] asked for. *)
Lemma loop_body_renders_at_window_size_witness :
  exists w' : world (F:=Z),
    loop_body example_device (turn 10 [] 1) example_world = Ok w' /\
    exists cmds : list cmd,
      frame_data (res (sw w')) !! 0%nat =
        Some {| fence := FencePending 0; cmd_buffer := cmds |} /\
      render_extents cmds = [(300, 300); (300, 300)].
Proof.
  eexists. run_first as H.
  match type of H with
  | _ = Ok ?w' =>
      assert (Hpresented : presented w' <> presented example_world)
        by (vm_compute; discriminate)
  end.
  destruct (loop_body_renders_at_window_size _ _ _ _ H Hpresented)
    as (_ & cmds & Hslot & Hextents).
  exists cmds. split; [exact Hslot|].
  rewrite Hextents. reflexivity.
Defined.

(** After three rendered frames the ring index is 1. *)
Lemma frame_index_counts_presented_witness :
  exists w : world (F:=Z),
    run_frames example_device [turn 10 [] 0; turn 11 [] 1; turn 12 [] 2]
      example_world = Ok w /\
    frame_index w = (length (presented w) mod 2)%nat.
Proof.
  eexists. run_first as H.
  assert (Hmain : snd (main (F:=Z) example_libc example_device []) =
                  Ok example_world) by (vm_compute; reflexivity).
  exact (frame_index_counts_presented _ _ _ _ _ _ Hmain H).
Defined.

(** At the head of the loop, rendering image 4 is out of bounds. *)
Lemma image_index_four_out_of_bounds_witness :
  render_frame 10 4 example_world = Stop Undefined.
Proof.
  assert (Hmain : snd (main (F:=Z) example_libc example_device []) =
                  Ok example_world) by (vm_compute; reflexivity).
  assert (Hrun : run_frames example_device [] example_world = Ok example_world)
    by reflexivity.
  destruct (image_index_four_out_of_bounds _ _ _ _ _ _ Hmain Hrun)
    as (_ & Hrender & _).
  apply Hrender.
Defined.

(** [example_device] hands out three images for the swapchain. *)
Lemma create_swapchain_image_data_witness :
  exists s' : swap_state (F:=Z),
    create_swapchain example_device (sw example_world) = Ok s' /\
    image_count (res s') = 3 /\
    image <$> image_data (res s') !! 2%nat = Some 13.
Proof.
  eexists. run_first as H.
  assert (Hfive : length (image_data (res (sw example_world))) = 5%nat)
    by reflexivity.
  destruct (create_swapchain_image_data _ _ _ Hfive H)
    as (_ & Hcount & _ & Hnew & _).
  split; [exact Hcount|].
  rewrite (Hnew 2%nat 13 eq_refl). reflexivity.
Defined.

(** The depth image of [example_device] is handle 21 in device-local
    memory, with a depth view in D32_SFLOAT. *)
Lemma create_swapchain_depth_attachment_witness :
  exists s' : swap_state (F:=Z),
    create_swapchain example_device (sw example_world) = Ok s' /\
    depth_view (res s') =
      {| view_image := depth_image (res s');
         view_format := VK_FORMAT_D32_SFLOAT;
         view_aspect := VK_IMAGE_ASPECT_DEPTH_BIT |}.
Proof.
  eexists. run_first as H.
  destruct (create_swapchain_depth_attachment _ _ _ H) as (_ & Hview & _).
  exact Hview.
Defined.
